(** * danetls: the authentication-mode decision and the per-address
      connection loop of [main] (danetls.c)

    A shallow embedding of [main] of danetls.c.  The program is one long
    function over local counters and a handful of globals; the calls it
    makes into ldns, the socket layer, OpenSSL and the STARTTLS helper are
    answered by an explicit _world_ (one oracle record per resolved
    address), and every such call is appended to a chronological trace.

    What is embedded, with the source lines:
    - lines 247-262: resolver, address and TLSA queries, the bogus test;
    - lines 270-285: the decision that sets [attempt_dane];
    - lines 307-338: the shared SSL context;
    - lines 345-524: the loop over the resolved addresses;
    - lines 526-544: [cleanup] and the return status.

    The part of [main] from line 247 on is [main], over a [config] that
    holds the results of option parsing.  [print_usage], [parse_options]
    and the start of [main] (lines 58-117 and 225-237) are [startup],
    over the answers of [getopt]; [program] is the two together.  Output
    on stdout that only reports
    progress (and everything printed under [debug]) is left out; the
    messages on the error branches are kept as trace events, those built
    with a format without their numeric arguments.  [SSL_CTX_new] is not
    checked by the source and is taken to succeed.  The name check that
    the TLS library applies to a certificate name is not in the
    repository: [name_matches] models it from the spec, for the claim
    on partial wildcards. *)

From Stdlib Require Import ZArith List Ascii String Bool Lia.
Import ListNotations.
Local Open Scope Z_scope.

(** * The program *)

(** ** C integers *)

(** The three counters are C [int]s.  Signed overflow is undefined in C;
    the model gives [++] the two's-complement wrap that the usual
    compilers produce, so that no theorem silently relies on unbounded
    counters. *)
Definition INT_MAX : Z := 2147483647.

Definition wrap_int (z : Z) : Z :=
  (z + 2147483648) mod 4294967296 - 2147483648.

Definition incr_int (c : Z) : Z := wrap_int (c + 1).

(** ** Data *)

(** [enum AUTH_MODE] of common.h; the initial value of the global is
    [MODE_BOTH], [-m dane] gives [MODE_DANE], [-m pkix] gives [MODE_PKIX]. *)
Inductive AUTH_MODE : Type := MODE_BOTH | MODE_DANE | MODE_PKIX.

(** The values of the global [starttls] of starttls.h. *)
Inductive STARTTLS : Type :=
  | STARTTLS_NONE
  | STARTTLS_SMTP
  | STARTTLS_XMPP_CLIENT
  | STARTTLS_XMPP_SERVER.

(** One node of the [tlsa_rdata] list; [data_len] is [length data]. *)
Record tlsa_rdata : Type := mk_tlsa {
  usage : Z;
  selector : Z;
  mtype : Z;
  data : list Byte.byte
}.

(** One node of the [struct addrinfo] list returned by [get_addresses]. *)
Record addrinfo : Type := mk_addrinfo {
  ai_family : Z;
  ai_addr : string;
  ai_port : Z
}.

(** The globals fixed by [parse_options] and the two positional
    arguments. *)
Record config : Type := mk_config {
  auth_mode : AUTH_MODE;
  CAfile : option string;
  service_name : option string;
  starttls : STARTTLS;
  hostname : string;
  port : Z
}.

(** [X509_V_OK] and [X509_CHECK_FLAG_NO_PARTIAL_WILDCARDS] with the values
    of the OpenSSL headers. *)
Definition X509_V_OK : Z := 0.
Definition X509_CHECK_FLAG_NO_PARTIAL_WILDCARDS : Z := 4.

(** What the program has configured on one [SSL] object. *)
Record SSL : Type := mk_SSL {
  ssl_dane_host : option string;      (* SSL_dane_enable(ssl, host) *)
  ssl_verify_host : option string;    (* SSL_set1_host(ssl, host) *)
  ssl_sni : option string;            (* TLS server name indication *)
  ssl_hostflags : Z;                  (* SSL_set_hostflags *)
  ssl_tlsa : list tlsa_rdata;         (* records accepted by SSL_dane_tlsa_add *)
  ssl_connect_state : bool;           (* SSL_set_connect_state *)
  ssl_auto_retry : bool               (* SSL_MODE_AUTO_RETRY *)
}.

(** ** The world *)

(** The answers of the library and system calls made for one address.
    [o_SSL_dane_tlsa_add i] answers the call for the [i]-th record of the
    TLSA list, [o_SSL_shutdown i] the [i]-th call of [SSL_shutdown]. *)
Record conn_oracle : Type := mk_oracle {
  o_socket : Z;
  o_connect : Z;
  o_SSL_new : bool;                   (* false: NULL *)
  o_SSL_dane_enable : Z;
  o_SSL_set1_host : Z;
  o_SSL_dane_tlsa_add : nat -> Z;
  o_do_starttls : bool;
  o_SSL_connect : Z;
  o_SSL_get_verify_result : Z;
  o_SSL_shutdown : nat -> Z
}.

(** The answers obtained before the loop.  The four DNSSEC flags are the
    globals of query-ldns.h with the values they hold when [main] reads
    them, compared with 0 as the source does.  [w_addresses] is the list
    returned by [get_addresses], each node with the answers its
    connection attempt will get. *)
Record world : Type := mk_world {
  w_resolver : bool;                  (* false: get_resolver gave NULL *)
  w_addresses : list (addrinfo * conn_oracle);
  w_tlsa : list tlsa_rdata;           (* the answer of get_tlsa, when asked *)
  dns_bogus_or_indeterminate : Z;
  tlsa_authenticated : Z;
  v4_authenticated : Z;
  v6_authenticated : Z;
  w_set_default_verify_paths : Z;
  w_load_verify_locations : Z;
  w_SSL_CTX_dane_enable : Z
}.

(** ** Trace events: the calls the program makes, in order *)

Inductive event : Type :=
  | Ev_get_resolver
  | Ev_get_addresses
  | Ev_get_tlsa
  | Ev_resolver_deep_free
  | Ev_stderr (msg : string)
  | Ev_stdout (msg : string)
  | Ev_perror (msg : string)
  | Ev_SSL_CTX_new
  | Ev_SSL_CTX_dane_enable (rc : Z)
  | Ev_SSL_CTX_free
  | Ev_socket (a : addrinfo) (fd : Z)
  | Ev_connect (a : addrinfo) (rc : Z)
  | Ev_close
  | Ev_SSL_new (ok : bool)
  | Ev_SSL_free
  | Ev_SSL_dane_enable (host : string) (rc : Z)
  | Ev_SSL_set1_host (host : string) (rc : Z)
  | Ev_SSL_set_tlsext_host_name (host : string)
  | Ev_SSL_set_hostflags (flags : Z)
  | Ev_SSL_dane_tlsa_add (rp : tlsa_rdata) (rc : Z)
  | Ev_unusable_tlsa (rp : tlsa_rdata)
  | Ev_do_starttls (app : STARTTLS) (ok : bool)
  | Ev_SSL_connect (s : SSL) (rc : Z)
  | Ev_SSL_get_verify_result (rcl : Z)
  | Ev_SSL_shutdown (rc : Z)
  | Ev_freeaddrinfo
  | Ev_free_tlsa.

(** ** The state of [main] *)

(** The locals of [main] that outlive a statement, and the trace. *)
Record state : Type := mk_state {
  count_success : Z;
  count_fail : Z;
  count_tlsa_usable : Z;
  attempt_dane : bool;
  tlsa_rdata_list : list tlsa_rdata;
  ctx : bool;                         (* false: NULL *)
  trace : list event
}.

(** Line 211 and lines 214-218. *)
Definition init_state : state := mk_state 0 0 0 false [] false [].

Definition emit (e : event) (st : state) : state :=
  mk_state (count_success st) (count_fail st) (count_tlsa_usable st)
           (attempt_dane st) (tlsa_rdata_list st) (ctx st) (trace st ++ [e]).

Definition incr_success (st : state) : state :=
  mk_state (incr_int (count_success st)) (count_fail st) (count_tlsa_usable st)
           (attempt_dane st) (tlsa_rdata_list st) (ctx st) (trace st).

Definition incr_fail (st : state) : state :=
  mk_state (count_success st) (incr_int (count_fail st)) (count_tlsa_usable st)
           (attempt_dane st) (tlsa_rdata_list st) (ctx st) (trace st).

Definition incr_tlsa_usable (st : state) : state :=
  mk_state (count_success st) (count_fail st) (incr_int (count_tlsa_usable st))
           (attempt_dane st) (tlsa_rdata_list st) (ctx st) (trace st).

Definition set_attempt_dane (b : bool) (st : state) : state :=
  mk_state (count_success st) (count_fail st) (count_tlsa_usable st)
           b (tlsa_rdata_list st) (ctx st) (trace st).

Definition set_tlsa_rdata_list (l : list tlsa_rdata) (st : state) : state :=
  mk_state (count_success st) (count_fail st) (count_tlsa_usable st)
           (attempt_dane st) l (ctx st) (trace st).

Definition set_ctx (b : bool) (st : state) : state :=
  mk_state (count_success st) (count_fail st) (count_tlsa_usable st)
           (attempt_dane st) (tlsa_rdata_list st) b (trace st).

Definition is_MODE_DANE (m : AUTH_MODE) : bool :=
  match m with MODE_DANE => true | _ => false end.

Definition is_MODE_BOTH (m : AUTH_MODE) : bool :=
  match m with MODE_BOTH => true | _ => false end.

Definition is_MODE_PKIX (m : AUTH_MODE) : bool :=
  match m with MODE_PKIX => true | _ => false end.

Definition is_nil {A : Type} (l : list A) : bool :=
  match l with [] => true | _ :: _ => false end.

(** ** Lines 247-262: the DNS queries and the bogus test *)

Definition dns_queries (cfg : config) (w : world) (st : state) : bool * state :=
  let st := emit Ev_get_resolver st in
  if negb (w_resolver w) then (true, st)
  else
    let st := emit Ev_get_addresses st in
    let st :=
      if negb (is_MODE_PKIX (auth_mode cfg))
      then set_tlsa_rdata_list (w_tlsa w) (emit Ev_get_tlsa st)
      else st in
    let st := emit Ev_resolver_deep_free st in
    if negb (dns_bogus_or_indeterminate w =? 0) then (true, st)
    else (false, st).

(** ** Lines 270-285: the decision *)

(** The result is [(goto_cleanup, state)]. *)
Definition select_auth (cfg : config) (w : world) (st : state) : bool * state :=
  if is_MODE_DANE (auth_mode cfg) || is_MODE_BOTH (auth_mode cfg) then
    if is_nil (tlsa_rdata_list st) then
      (is_MODE_DANE (auth_mode cfg), st)
    else if tlsa_authenticated w =? 0 then
      (is_MODE_DANE (auth_mode cfg), emit (Ev_stderr "Insecure TLSA records.") st)
    else if (v4_authenticated w =? 0) || (v6_authenticated w =? 0) then
      (is_MODE_DANE (auth_mode cfg), emit (Ev_stderr "Insecure Address records.") st)
    else
      (false, set_attempt_dane true st)
  else (false, st).

(** ** Lines 307-338: the shared SSL context *)

Definition load_verify (cfg : config) (w : world) (st : state) : bool * state :=
  match CAfile cfg with
  | None =>
      if w_set_default_verify_paths w =? 0 then
        (true, emit (Ev_stderr "Failed to load default certificate authorities.") st)
      else (false, st)
  | Some f =>
      if w_load_verify_locations w =? 0 then
        (true, emit (Ev_stderr ("Failed to load certificate authority store: " ++ f ++ ".")) st)
      else (false, st)
  end.

Definition init_ctx (cfg : config) (w : world) (st : state) : bool * state :=
  let st := set_ctx true (emit Ev_SSL_CTX_new st) in
  let (goto_cleanup, st) := load_verify cfg w st in
  if goto_cleanup then (true, st)
  else
    let st := emit (Ev_SSL_CTX_dane_enable (w_SSL_CTX_dane_enable w)) st in
    if w_SSL_CTX_dane_enable w <=? 0 then
      (true, emit (Ev_stderr "Unable to enable DANE on SSL context.") st)
    else (false, st).

(** ** Lines 345-524: one iteration of the address loop *)

(** The common tail of the error branches after a session exists:
    [SSL_free(ssl); close(sock); count_fail++]. *)
Definition free_close_fail (st : state) : state :=
  incr_fail (emit Ev_close (emit Ev_SSL_free st)).

(** Lines 388-412.  [inl] is the [continue] of a failed binding step,
    [inr] carries the session on. *)
Definition bind_host (cfg : config) (o : conn_oracle) (st : state)
  : state + (SSL * state) :=
  if attempt_dane st then
    let st := emit (Ev_SSL_dane_enable (hostname cfg) (o_SSL_dane_enable o)) st in
    if o_SSL_dane_enable o <=? 0 then
      inl (free_close_fail (emit (Ev_stderr "SSL_dane_enable() failed.") st))
    else
      inr (mk_SSL (Some (hostname cfg)) None (Some (hostname cfg)) 0 [] false false, st)
  else
    let st := emit (Ev_SSL_set1_host (hostname cfg) (o_SSL_set1_host o)) st in
    if negb (o_SSL_set1_host o =? 1) then
      inl (free_close_fail (emit (Ev_stderr "SSL_set1_host() failed.") st))
    else
      inr (mk_SSL None (Some (hostname cfg)) (Some (hostname cfg)) 0 [] false false,
           emit (Ev_SSL_set_tlsext_host_name (hostname cfg)) st).

(** Lines 415-421. *)
Definition set_client_side (ssl : SSL) (st : state) : SSL * state :=
  (mk_SSL (ssl_dane_host ssl) (ssl_verify_host ssl) (ssl_sni ssl)
          X509_CHECK_FLAG_NO_PARTIAL_WILDCARDS (ssl_tlsa ssl) true true,
   emit (Ev_SSL_set_hostflags X509_CHECK_FLAG_NO_PARTIAL_WILDCARDS) st).

Definition add_tlsa (rp : tlsa_rdata) (ssl : SSL) : SSL :=
  mk_SSL (ssl_dane_host ssl) (ssl_verify_host ssl) (ssl_sni ssl)
         (ssl_hostflags ssl) (ssl_tlsa ssl ++ [rp])
         (ssl_connect_state ssl) (ssl_auto_retry ssl).

(** Lines 426-443, the loop over the TLSA list; [i] is the position of
    [rp] in the list.  The [continue] of line 435 stands inside this
    [for], so it goes on with the next record: the model does the same,
    and the calls that follow are answered by the oracle although the
    session has been released. *)
Fixpoint tlsa_add_loop (o : conn_oracle) (rps : list tlsa_rdata) (i : nat)
    (ssl : SSL) (st : state) : SSL * state :=
  match rps with
  | [] => (ssl, st)
  | rp :: next =>
      let rc := o_SSL_dane_tlsa_add o i in
      let st := emit (Ev_SSL_dane_tlsa_add rp rc) st in
      if rc <? 0 then
        tlsa_add_loop o next (S i) ssl
          (free_close_fail (emit (Ev_stdout "SSL_dane_tlsa_add() failed.") st))
      else if rc =? 0 then
        tlsa_add_loop o next (S i) ssl (emit (Ev_unusable_tlsa rp) st)
      else
        tlsa_add_loop o next (S i) (add_tlsa rp ssl) (incr_tlsa_usable st)
  end.

(** Lines 518-519: [while (SSL_shutdown(ssl) == 0) ;].  The source puts no
    bound on the loop, so the model needs fuel: [None] says that [fuel]
    calls all returned 0. *)
Fixpoint SSL_shutdown_loop (fuel : nat) (rc : nat -> Z) (i : nat) (st : state)
  : option state :=
  match fuel with
  | O => None
  | S fuel' =>
      let st := emit (Ev_SSL_shutdown (rc i)) st in
      if rc i =? 0 then SSL_shutdown_loop fuel' rc (S i) st else Some st
  end.

(** Lines 484-515: the verification result moves one of the counters. *)
Definition classify (o : conn_oracle) (st : state) : state :=
  let st := emit (Ev_SSL_get_verify_result (o_SSL_get_verify_result o)) st in
  if o_SSL_get_verify_result o =? X509_V_OK then incr_success st
  else incr_fail (emit (Ev_stderr "Error: peer authentication failed.") st).

(** Lines 464-522: the handshake, the verdict, the shutdown. *)
Definition tls_connect (fuel : nat) (o : conn_oracle) (ssl : SSL) (st : state)
  : option state :=
  let st := emit (Ev_SSL_connect ssl (o_SSL_connect o)) st in
  if o_SSL_connect o <=? 0 then
    Some (free_close_fail (emit (Ev_stderr "TLS connection failed.") st))
  else
    match SSL_shutdown_loop fuel (o_SSL_shutdown o) 0 (classify o st) with
    | None => None
    | Some st => Some (emit Ev_close (emit Ev_SSL_free st))
    end.

(** Lines 446-522, from the usable-records test to the end of the body. *)
Definition handshake (fuel : nat) (cfg : config) (o : conn_oracle)
    (ssl : SSL) (st : state) : option state :=
  if is_MODE_DANE (auth_mode cfg) && (count_tlsa_usable st =? 0) then
    Some (free_close_fail (emit (Ev_stderr "No usable TLSA records present.") st))
  else
    match starttls cfg with
    | STARTTLS_NONE => tls_connect fuel o ssl st
    | app =>
        let st := emit (Ev_do_starttls app (o_do_starttls o)) st in
        if negb (o_do_starttls o) then
          Some (free_close_fail (emit (Ev_stderr "STARTTLS failed.") st))
        else tls_connect fuel o ssl st
    end.

(** Lines 388-444: binding the policy to the session. *)
Definition bind_session (cfg : config) (o : conn_oracle) (st : state)
  : state + (SSL * state) :=
  match bind_host cfg o st with
  | inl st => inl st
  | inr (ssl, st) =>
      let (ssl, st) := set_client_side ssl st in
      inr (if attempt_dane st
           then tlsa_add_loop o (tlsa_rdata_list st) 0 ssl st
           else (ssl, st))
  end.

(** The body of the [for] of line 345 for the address [a]. *)
Definition connect_address (fuel : nat) (cfg : config) (a : addrinfo)
    (o : conn_oracle) (st : state) : option state :=
  let st := emit (Ev_socket a (o_socket o)) st in
  if o_socket o =? -1 then
    Some (incr_fail (emit (Ev_perror "socket") st))
  else
    let st := emit (Ev_connect a (o_connect o)) st in
    if o_connect o =? -1 then
      Some (incr_fail (emit Ev_close (emit (Ev_perror "connect") st)))
    else
      let st := emit (Ev_SSL_new (o_SSL_new o)) st in
      if negb (o_SSL_new o) then
        Some (incr_fail (emit Ev_close (emit (Ev_stderr "SSL_new() failed.") st)))
      else
        match bind_session cfg o st with
        | inl st => Some st
        | inr (ssl, st) => handshake fuel cfg o ssl st
        end.

(** The [for] of line 345 over the list [gaip]. *)
Fixpoint address_loop (fuel : nat) (cfg : config)
    (gaip : list (addrinfo * conn_oracle)) (st : state) : option state :=
  match gaip with
  | [] => Some st
  | (a, o) :: ai_next =>
      match connect_address fuel cfg a o st with
      | None => None
      | Some st => address_loop fuel cfg ai_next st
      end
  end.

(** ** Lines 526-544: cleanup and return status *)

Definition exit_status (count_success count_fail : Z) : Z :=
  if (0 <? count_success) && (count_fail =? 0) then 0
  else if (0 <? count_success) && negb (count_fail =? 0) then 1
  else 2.

Definition cleanup (st : state) : Z * state :=
  let st := emit Ev_free_tlsa (emit Ev_freeaddrinfo st) in
  let st := if ctx st then emit Ev_SSL_CTX_free st else st in
  (exit_status (count_success st) (count_fail st), st).

(** ** [main], from line 247 on *)

(** Lines 247-338, everything before the address loop.  The result is
    [(goto_cleanup, state)]. *)
Definition prelude (cfg : config) (w : world) : bool * state :=
  let (goto_cleanup, st) := dns_queries cfg w init_state in
  if goto_cleanup then (true, st)
  else
    let (goto_cleanup, st) := select_auth cfg w st in
    if goto_cleanup then (true, st)
    else init_ctx cfg w st.

Definition main (fuel : nat) (cfg : config) (w : world) : option (Z * state) :=
  let (goto_cleanup, st) := prelude cfg w in
  if goto_cleanup then Some (cleanup st)
  else
    match address_loop fuel cfg (w_addresses w) st with
    | None => None
    | Some st => Some (cleanup st)
    end.

(** * Vocabulary of the statements *)

(** ** How a piece of the loop body moves the state *)

(** [steps P st st']: [st'] has the locals [attempt_dane],
    [tlsa_rdata_list] and [ctx] of [st], and its trace is the trace of
    [st] followed by events that all satisfy [P]. *)
Definition steps (P : event -> Prop) (st st' : state) : Prop :=
  attempt_dane st' = attempt_dane st /\
  tlsa_rdata_list st' = tlsa_rdata_list st /\
  ctx st' = ctx st /\
  exists new, trace st' = trace st ++ new /\ Forall P new.

(** ** The events of the address loop *)

(** What the program has set on a session by the time it calls
    [SSL_connect], as a function of the shared verdict [dane]. *)
Definition session_bound (cfg : config) (dane : bool) (s : SSL) : Prop :=
  ssl_hostflags s = X509_CHECK_FLAG_NO_PARTIAL_WILDCARDS /\
  ssl_sni s = Some (hostname cfg) /\
  ssl_connect_state s = true /\
  ssl_auto_retry s = true /\
  if dane
  then ssl_dane_host s = Some (hostname cfg) /\ ssl_verify_host s = None
  else ssl_dane_host s = None /\ ssl_verify_host s = Some (hostname cfg) /\
       ssl_tlsa s = [].

(** The events one iteration can append when the verdict is [dane]. *)
Inductive loop_event (cfg : config) (dane : bool) : event -> Prop :=
  | le_socket a fd : loop_event cfg dane (Ev_socket a fd)
  | le_connect a rc : loop_event cfg dane (Ev_connect a rc)
  | le_perror m : loop_event cfg dane (Ev_perror m)
  | le_stderr m : loop_event cfg dane (Ev_stderr m)
  | le_close : loop_event cfg dane Ev_close
  | le_SSL_new ok : loop_event cfg dane (Ev_SSL_new ok)
  | le_SSL_free : loop_event cfg dane Ev_SSL_free
  | le_dane_enable rc :
      dane = true -> loop_event cfg dane (Ev_SSL_dane_enable (hostname cfg) rc)
  | le_set1_host rc :
      dane = false -> loop_event cfg dane (Ev_SSL_set1_host (hostname cfg) rc)
  | le_tlsext_host_name :
      dane = false ->
      loop_event cfg dane (Ev_SSL_set_tlsext_host_name (hostname cfg))
  | le_hostflags :
      loop_event cfg dane
        (Ev_SSL_set_hostflags X509_CHECK_FLAG_NO_PARTIAL_WILDCARDS)
  | le_tlsa_add rp rc :
      dane = true -> loop_event cfg dane (Ev_SSL_dane_tlsa_add rp rc)
  | le_tlsa_failed :
      dane = true -> loop_event cfg dane (Ev_stdout "SSL_dane_tlsa_add() failed.")
  | le_unusable rp : dane = true -> loop_event cfg dane (Ev_unusable_tlsa rp)
  | le_starttls ok :
      starttls cfg <> STARTTLS_NONE ->
      loop_event cfg dane (Ev_do_starttls (starttls cfg) ok)
  | le_SSL_connect s rc :
      session_bound cfg dane s -> loop_event cfg dane (Ev_SSL_connect s rc)
  | le_verify_result rcl : loop_event cfg dane (Ev_SSL_get_verify_result rcl)
  | le_shutdown rc : loop_event cfg dane (Ev_SSL_shutdown rc).

(** The events that only the address loop produces. *)
Definition contacts_address (e : event) : bool :=
  match e with
  | Ev_socket _ _ | Ev_connect _ _ | Ev_SSL_new _
  | Ev_SSL_dane_enable _ _ | Ev_SSL_set1_host _ _
  | Ev_SSL_set_tlsext_host_name _ | Ev_SSL_set_hostflags _
  | Ev_SSL_dane_tlsa_add _ _ | Ev_do_starttls _ _ | Ev_SSL_connect _ _
  | Ev_SSL_get_verify_result _ | Ev_SSL_shutdown _ => true
  | _ => false
  end.

(** What [cleanup] appends when the context is ([c = true]) or is not
    allocated. *)
Definition cleanup_events (c : bool) : list event :=
  [Ev_freeaddrinfo; Ev_free_tlsa] ++ (if c then [Ev_SSL_CTX_free] else []).

(** ** Termination *)

(** The [SSL_shutdown] calls of a session stop looping within [fuel]
    calls. *)
Definition shutdown_answers (fuel : nat) (o : conn_oracle) : Prop :=
  exists n, (n < fuel)%nat /\ o_SSL_shutdown o n <> 0.

(** ** The verdict on DANE *)

(** The conjunction under which DANE is attempted, on the TLSA list the
    program holds. *)
Definition dane_conditions (cfg : config) (w : world) (st : state) : Prop :=
  auth_mode cfg <> MODE_PKIX /\
  tlsa_rdata_list st <> [] /\
  tlsa_authenticated w <> 0 /\
  v4_authenticated w <> 0 /\
  v6_authenticated w <> 0 /\
  dns_bogus_or_indeterminate w = 0.

(** ** The counters *)

(** The number of records of [rps] (the first at position [i]) that
    [SSL_dane_tlsa_add] accepts ([rc > 0]), and the number for which it
    fails ([rc < 0]). *)
Fixpoint tlsa_add_usable (o : conn_oracle) (rps : list tlsa_rdata) (i : nat)
  : nat :=
  match rps with
  | [] => 0
  | _ :: next =>
      (if 0 <? o_SSL_dane_tlsa_add o i then 1 else 0)
      + tlsa_add_usable o next (S i)
  end.

Fixpoint tlsa_add_failures (o : conn_oracle) (rps : list tlsa_rdata) (i : nat)
  : nat :=
  match rps with
  | [] => 0
  | _ :: next =>
      (if o_SSL_dane_tlsa_add o i <? 0 then 1 else 0)
      + tlsa_add_failures o next (S i)
  end.


(** Two states that differ at most in [count_success] and [count_fail]. *)
Definition same_but_tallies (st1 st2 : state) : Prop :=
  count_tlsa_usable st1 = count_tlsa_usable st2 /\
  attempt_dane st1 = attempt_dane st2 /\
  tlsa_rdata_list st1 = tlsa_rdata_list st2 /\
  ctx st1 = ctx st2 /\
  trace st1 = trace st2.


(** ** Counting calls *)

(** The calls that an iteration makes on behalf of one address. *)
Inductive call : Type :=
  | Call_socket
  | Call_connect
  | Call_SSL_new
  | Call_bind_host          (* SSL_dane_enable or SSL_set1_host *)
  | Call_do_starttls
  | Call_SSL_connect
  | Call_SSL_get_verify_result.

Definition is_call (c : call) (e : event) : bool :=
  match c, e with
  | Call_socket, Ev_socket _ _ => true
  | Call_connect, Ev_connect _ _ => true
  | Call_SSL_new, Ev_SSL_new _ => true
  | Call_bind_host, Ev_SSL_dane_enable _ _ => true
  | Call_bind_host, Ev_SSL_set1_host _ _ => true
  | Call_do_starttls, Ev_do_starttls _ _ => true
  | Call_SSL_connect, Ev_SSL_connect _ _ => true
  | Call_SSL_get_verify_result, Ev_SSL_get_verify_result _ => true
  | _, _ => false
  end.


(** The number of events of [l] that satisfy [p]. *)
Definition calls (p : event -> bool) (l : list event) : nat :=
  List.length (filter p l).

(** [st] with the events [es] appended to its trace. *)
Definition emits (es : list event) (st : state) : state :=
  mk_state (count_success st) (count_fail st) (count_tlsa_usable st)
           (attempt_dane st) (tlsa_rdata_list st) (ctx st) (trace st ++ es).

(** The message of the branch of lines 446-452. *)
Definition is_no_usable_abort (e : event) : bool :=
  match e with
  | Ev_stderr m => String.eqb m "No usable TLSA records present."
  | _ => false
  end.

(** How many address attempts of a trace were aborted by the
    usable-records test. *)
Definition usable_aborts (l : list event) : nat := calls is_no_usable_abort l.

(** ** Sample runs *)

Definition sample_config (m : AUTH_MODE) : config :=
  mk_config m None None STARTTLS_NONE "example.com" 443.

Definition sample_address : addrinfo := mk_addrinfo 2 "192.0.2.1" 443.
Definition sample_address6 : addrinfo := mk_addrinfo 10 "2001:db8::1" 443.

Definition sample_record : tlsa_rdata :=
  mk_tlsa 3 1 1 [Byte.x8c; Byte.xe5; Byte.x14].
Definition sample_record2 : tlsa_rdata :=
  mk_tlsa 2 0 1 [Byte.x27; Byte.xb6].

(** Every call succeeds, the certificate verifies, and the second
    [SSL_shutdown] reports the peer's close. *)
Definition oracle_ok : conn_oracle :=
  mk_oracle 3 0 true 1 1 (fun _ => 1) true 1 X509_V_OK
            (fun i => if Nat.eqb i 0 then 0 else 1).

(** As [oracle_ok], but every [SSL_dane_tlsa_add] fails. *)
Definition oracle_tlsa_add_fails : conn_oracle :=
  mk_oracle 3 0 true 1 1 (fun _ => -1) true 1 X509_V_OK (fun _ => 1).

(** As [oracle_ok], but no record is usable for the session. *)
Definition oracle_unusable : conn_oracle :=
  mk_oracle 3 0 true 1 1 (fun _ => 0) true 1 X509_V_OK (fun _ => 1).


(** A resolver that answers, everything authenticated, nothing bogus. *)
Definition secure_world (gaip : list (addrinfo * conn_oracle))
    (tlsa : list tlsa_rdata) : world :=
  mk_world true gaip tlsa 0 1 1 1 1 1 1.

(** As [oracle_ok], but the certificate does not verify. *)
Definition oracle_verify_fails : conn_oracle :=
  mk_oracle 3 0 true 1 1 (fun _ => 1) true 1 65 (fun _ => 1).

(** Two addresses: the certificate of the first verifies, that of the
    second does not. *)
Definition world_two_addresses : world :=
  secure_world [(sample_address, oracle_ok);
                (sample_address6, oracle_verify_fails)] [sample_record].

(** Everything authenticated, but the resolver flagged a bogus answer. *)
Definition world_bogus : world :=
  mk_world true [(sample_address, oracle_ok)] [sample_record] 1 1 1 1 1 1 1.

(** * The start of [main]: options and arguments *)

(** ** Lines 58-117 and 225-237 *)

(** One call of [getopt(argc, argv, "hdn:c:m:s:")]: the option character
    it returns, the [optarg] it leaves, and what the call itself writes
    to stderr.  The program leaves [opterr] alone and its option string
    has no leading colon, so [getopt] reports an unknown option or a
    missing argument on stderr before it returns.  The answers of the
    successive calls, up to the -1 that ends the loop, and the final
    [optind] are taken from libc as they come. *)
Record getopt_result : Type := mk_getopt {
  opt : Ascii.ascii;
  optarg : string;
  diagnostic : option string
}.

(** What one call of [getopt] adds to the output. *)
Definition getopt_stderr (r : getopt_result) : list event :=
  match diagnostic r with
  | Some m => [Ev_stderr m]
  | None => []
  end.

(** The globals of lines 48-51 and the global [starttls]. *)
Record globals : Type := mk_globals {
  g_debug : Z;
  g_auth_mode : AUTH_MODE;
  g_CAfile : option string;
  g_service_name : option string;
  g_starttls : STARTTLS
}.

(** Lines 48-51; the initial value of [starttls] is set in starttls.c and
    enters as [starttls0]. *)
Definition initial_globals (starttls0 : STARTTLS) : globals :=
  mk_globals 0 MODE_BOTH None None starttls0.

(** A function that may leave through [exit]. *)
Inductive exit_or (A : Type) : Type :=
  | Exit (code : Z) (out : list event)
  | Continue (a : A).

Arguments Exit {A} code out.
Arguments Continue {A} a.

Definition LF : string := String (Ascii.ascii_of_nat 10) EmptyString.

(** Lines 60-70: the format of [print_usage] with [progname] filled in. *)
Definition usage_text (progname : string) : string :=
  LF ++ "Usage: " ++ progname ++ " [options] <hostname> <portnumber>" ++ LF ++
  LF ++
  "       -h:             print this help message" ++ LF ++
  "       -d:             debug mode" ++ LF ++
  "       -n <name>:      service name" ++ LF ++
  "       -c <cafile>:    CA file" ++ LF ++
  "       -m <dane|pkix>: dane or pkix mode" ++ LF ++
  "                       (default is dane & fallback to pkix)" ++ LF ++
  "       -s <app>:       use starttls with specified application" ++ LF ++
  "                       ('smtp', 'xmpp-client', 'xmpp-server')" ++ LF ++
  LF.

(** Lines 58-72: the usage text on stdout, then [exit(3)].  [before] is
    what the caller has written so far. *)
Definition print_usage {A : Type} (progname : string) (before : list event)
  : exit_or A :=
  Exit 3 (before ++ [Ev_stdout (usage_text progname)]).

(** Lines 84-114: the [switch] for one answer of [getopt]. *)
Definition parse_option (progname : string) (r : getopt_result) (g : globals)
  : exit_or globals :=
  if Ascii.eqb (opt r) "h"%char then print_usage progname []
  else if Ascii.eqb (opt r) "d"%char then
    Continue (mk_globals 1 (g_auth_mode g) (g_CAfile g) (g_service_name g)
                         (g_starttls g))
  else if Ascii.eqb (opt r) "n"%char then
    Continue (mk_globals (g_debug g) (g_auth_mode g) (g_CAfile g)
                         (Some (optarg r)) (g_starttls g))
  else if Ascii.eqb (opt r) "c"%char then
    Continue (mk_globals (g_debug g) (g_auth_mode g) (Some (optarg r))
                         (g_service_name g) (g_starttls g))
  else if Ascii.eqb (opt r) "m"%char then
    if String.eqb (optarg r) "dane" then
      Continue (mk_globals (g_debug g) MODE_DANE (g_CAfile g)
                           (g_service_name g) (g_starttls g))
    else if String.eqb (optarg r) "pkix" then
      Continue (mk_globals (g_debug g) MODE_PKIX (g_CAfile g)
                           (g_service_name g) (g_starttls g))
    else print_usage progname []
  else if Ascii.eqb (opt r) "s"%char then
    if String.eqb (optarg r) "smtp" then
      Continue (mk_globals (g_debug g) (g_auth_mode g) (g_CAfile g)
                           (g_service_name g) STARTTLS_SMTP)
    else if String.eqb (optarg r) "xmpp-client" then
      Continue (mk_globals (g_debug g) (g_auth_mode g) (g_CAfile g)
                           (g_service_name g) STARTTLS_XMPP_CLIENT)
    else if String.eqb (optarg r) "xmpp-server" then
      Continue (mk_globals (g_debug g) (g_auth_mode g) (g_CAfile g)
                           (g_service_name g) STARTTLS_XMPP_SERVER)
    else
      print_usage progname
        [Ev_stderr ("Unsupported STARTTLS application: " ++ optarg r ++ ".")]
  else print_usage progname [].

(** Lines 83-116: the [while] over the answers of [getopt].  Each turn
    starts with the call of [getopt] in the loop condition, which may
    write its diagnostic, and goes on with the [switch]; [out] is the
    output so far. *)
Fixpoint parse_options (progname : string) (rs : list getopt_result)
    (g : globals) (out : list event) : exit_or (globals * list event) :=
  match rs with
  | [] => Continue (g, out)
  | r :: rs' =>
      let out := out ++ getopt_stderr r in
      match parse_option progname r g with
      | Exit code usage => Exit code (out ++ usage)
      | Continue g' => parse_options progname rs' g' out
      end
  end.

(** [strrchr(s, c)] for a character [c] other than NUL: the part of [s]
    that starts at the last [c], if there is one. *)
Fixpoint strrchr (s : string) (c : Ascii.ascii) : option string :=
  match s with
  | EmptyString => None
  | String a rest =>
      match strrchr rest c with
      | Some p => Some p
      | None => if Ascii.eqb a c then Some s else None
      end
  end.

(** Lines 225-228. *)
Definition progname_of (argv0 : string) : string :=
  match strrchr argv0 "/"%char with
  | Some (String _ p) => p
  | Some EmptyString => EmptyString
  | None => argv0
  end.

(** What the command line and libc give to [main]: [argv] as [main]
    receives it, the answers of [getopt] with the final [optind],
    [argv] as the calls of [getopt] leave it ([getopt] works on the
    array in place: the GNU one moves the arguments that are no options
    behind the options, others leave the array as it is), the value
    [atoi] returns for a string, and the initial value of [starttls]. *)
Record invocation : Type := mk_invocation {
  argv : list string;
  getopt_answers : list getopt_result;
  optind : nat;
  argv_after_getopt : list string;
  atoi : string -> Z;
  starttls0 : STARTTLS
}.

(** Lines 225-237.  [argv[0]] is read before [getopt] has run, the
    positional arguments after it; [argc] is the number of elements of
    [argv], which [getopt] does not change.  [port] is a [uint16_t]: the
    [int] of [atoi] is reduced modulo 65536.  The result carries the
    output so far. *)
Definition startup (inv : invocation) : exit_or (config * list event) :=
  let progname := progname_of (hd EmptyString (argv inv)) in
  match parse_options progname (getopt_answers inv)
          (initial_globals (starttls0 inv)) [] with
  | Exit code out => Exit code out
  | Continue (g, out) =>
      let rest := skipn (optind inv) (argv_after_getopt inv) in
      if negb (Z.of_nat (List.length (argv inv)) - Z.of_nat (optind inv) =? 2)
      then print_usage progname out
      else
        Continue (mk_config (g_auth_mode g) (g_CAfile g) (g_service_name g)
                            (g_starttls g) (nth 0 rest EmptyString)
                            (atoi inv (nth 1 rest EmptyString) mod 65536),
                  out)
  end.

(** [st] with the events [out] before its trace. *)
Definition after_output (out : list event) (st : state) : state :=
  mk_state (count_success st) (count_fail st) (count_tlsa_usable st)
           (attempt_dane st) (tlsa_rdata_list st) (ctx st) (out ++ trace st).

(** The whole of [main]: lines 225-237, then the part from line 247 on. *)
Definition program (fuel : nat) (inv : invocation) (w : world)
  : option (Z * state) :=
  match startup inv with
  | Exit code out => Some (code, emits out init_state)
  | Continue (cfg, out) =>
      match main fuel cfg w with
      | None => None
      | Some (code, st) => Some (code, after_output out st)
      end
  end.

(** ** More vocabulary *)

(** The option [r] passes the [switch] of [parse_options]. *)
Definition option_accepted (r : getopt_result) : bool :=
  Ascii.eqb (opt r) "d"%char || Ascii.eqb (opt r) "n"%char || Ascii.eqb (opt r) "c"%char ||
  (Ascii.eqb (opt r) "m"%char &&
   (String.eqb (optarg r) "dane" || String.eqb (optarg r) "pkix")) ||
  (Ascii.eqb (opt r) "s"%char &&
   (String.eqb (optarg r) "smtp" || String.eqb (optarg r) "xmpp-client" ||
    String.eqb (optarg r) "xmpp-server")).

(** The command line is refused: [getopt] reports an option that the
    [switch] does not accept, or the arguments left after the options
    are not exactly two. *)
Definition usage_error (inv : invocation) : Prop :=
  forallb option_accepted (getopt_answers inv) = false \/
  List.length (argv inv) <> (optind inv + 2)%nat.

(** The first answer of [getopt] that the [switch] does not accept. *)
Definition first_rejected (rs : list getopt_result) : option getopt_result :=
  find (fun r => negb (option_accepted r)) rs.

(** The answers of [getopt] that the loop of [parse_options] gets to
    see: those up to the first one that the [switch] does not accept,
    that one included. *)
Fixpoint answers_seen (rs : list getopt_result) : list getopt_result :=
  match rs with
  | [] => []
  | r :: rs' => r :: (if option_accepted r then answers_seen rs' else [])
  end.

(** What a refused command line leaves on stdout and stderr: the
    diagnostics of [getopt], the complaint of line 107 when the first
    refused option is [-s], and the usage text. *)
Definition usage_output (progname : string) (rs : list getopt_result)
  : list event :=
  flat_map getopt_stderr (answers_seen rs) ++
  match first_rejected rs with
  | Some r =>
      if Ascii.eqb (opt r) "s"%char
      then [Ev_stderr ("Unsupported STARTTLS application: " ++ optarg r ++ ".")]
      else []
  | None => []
  end ++
  [Ev_stdout (usage_text progname)].

(** The event is output of the program itself, on stdout or stderr. *)
Definition is_output (e : event) : bool :=
  match e with Ev_stdout _ | Ev_stderr _ => true | _ => false end.

(** The mode that an accepted argument of [-m] selects (lines 92-95). *)
Definition auth_mode_of (arg : string) : AUTH_MODE :=
  if String.eqb arg "dane" then MODE_DANE else MODE_PKIX.

(** The application that an accepted argument of [-s] selects (lines
    100-105). *)
Definition starttls_of (arg : string) : STARTTLS :=
  if String.eqb arg "smtp" then STARTTLS_SMTP
  else if String.eqb arg "xmpp-client" then STARTTLS_XMPP_CLIENT
  else STARTTLS_XMPP_SERVER.

(** Some answer of [getopt] is the option [c]. *)
Definition option_given (c : Ascii.ascii) (rs : list getopt_result) : bool :=
  existsb (fun r => Ascii.eqb (opt r) c) rs.

(** The characters of a string. *)
Definition chars (s : string) : list Ascii.ascii := list_ascii_of_string s.

(** The argument of the last option [c] among the answers [rs]. *)
Fixpoint last_optarg (c : Ascii.ascii) (rs : list getopt_result)
  : option string :=
  match rs with
  | [] => None
  | r :: rs' =>
      match last_optarg c rs' with
      | Some x => Some x
      | None => if Ascii.eqb (opt r) c then Some (optarg r) else None
      end
  end.

(** What a list of events holds of some kind: [f] gives the items of one
    event. *)
Definition collect {X : Type} (f : event -> list X) (l : list event) : list X :=
  flat_map f l.

(** The addresses for which [socket] was called. *)
Definition socket_address (e : event) : list addrinfo :=
  match e with Ev_socket a _ => [a] | _ => [] end.

(** The sessions on which [SSL_connect] was called. *)
Definition connect_session (e : event) : list SSL :=
  match e with Ev_SSL_connect s _ => [s] | _ => [] end.

Definition is_socket_opened (e : event) : bool :=
  match e with Ev_socket _ fd => negb (fd =? -1) | _ => false end.

Definition is_close (e : event) : bool :=
  match e with Ev_close => true | _ => false end.

Definition is_SSL_new_ok (e : event) : bool :=
  match e with Ev_SSL_new ok => ok | _ => false end.

Definition is_SSL_free (e : event) : bool :=
  match e with Ev_SSL_free => true | _ => false end.

Definition is_SSL_connect (e : event) : bool :=
  match e with Ev_SSL_connect _ _ => true | _ => false end.

Definition is_tlsext_host_name (e : event) : bool :=
  match e with Ev_SSL_set_tlsext_host_name _ => true | _ => false end.

Definition is_set1_host_ok (e : event) : bool :=
  match e with Ev_SSL_set1_host _ rc => rc =? 1 | _ => false end.

(** No [SSL_dane_tlsa_add] of the run fails: DANE is not attempted, or
    the call returns 0 or more for every record at every address. *)
Definition no_tlsa_add_failure (st : state)
    (gaip : list (addrinfo * conn_oracle)) : Prop :=
  attempt_dane st = false \/
  Forall (fun ao => tlsa_add_failures (snd ao) (tlsa_rdata_list st) 0 = 0%nat)
         gaip.

(** The records of [rps] (the first at position [i]) that
    [SSL_dane_tlsa_add] accepts, in order. *)
Fixpoint usable_records (o : conn_oracle) (rps : list tlsa_rdata) (i : nat)
  : list tlsa_rdata :=
  match rps with
  | [] => []
  | rp :: next =>
      (if 0 <? o_SSL_dane_tlsa_add o i then [rp] else [])
      ++ usable_records o next (S i)
  end.

(** The steps of lines 359-412 succeed for the address of [o]: the
    iteration gets as far as the TLSA records of line 424 and the test
    of line 446. *)
Definition session_is_bound (o : conn_oracle) (st : state) : bool :=
  negb (o_socket o =? -1) && negb (o_connect o =? -1) && o_SSL_new o &&
  (if attempt_dane st then negb (o_SSL_dane_enable o <=? 0)
   else o_SSL_set1_host o =? 1).

(** The number of records that [SSL_dane_tlsa_add] accepts in the
    iteration for the address of [o]. *)
Definition records_accepted (o : conn_oracle) (st : state) : nat :=
  if session_is_bound o st && attempt_dane st
  then tlsa_add_usable o (tlsa_rdata_list st) 0
  else 0%nat.



(** A call of [SSL_dane_tlsa_add] that accepts its record. *)
Definition is_tlsa_add_accepted (e : event) : bool :=
  match e with Ev_SSL_dane_tlsa_add _ rc => 0 <? rc | _ => false end.

(** Every step of the attempt on one address succeeds and the
    certificate verifies; [usable] is the value of [count_tlsa_usable]
    seen by the test of line 446. *)
Definition address_verifies (cfg : config) (o : conn_oracle) (dane : bool)
    (usable : Z) : bool :=
  negb (o_socket o =? -1) &&
  negb (o_connect o =? -1) &&
  o_SSL_new o &&
  (if dane then negb (o_SSL_dane_enable o <=? 0) else o_SSL_set1_host o =? 1) &&
  negb (is_MODE_DANE (auth_mode cfg) && (usable =? 0)) &&
  (match starttls cfg with STARTTLS_NONE => true | _ => o_do_starttls o end) &&
  negb (o_SSL_connect o <=? 0) &&
  (o_SSL_get_verify_result o =? X509_V_OK).

(** The prelude ends in [goto cleanup]: the fatal errors of lines
    247-338. *)
Definition fatal_before_loop (cfg : config) (w : world) : Prop :=
  w_resolver w = false \/
  dns_bogus_or_indeterminate w <> 0 \/
  (auth_mode cfg = MODE_DANE /\
   (w_tlsa w = [] \/ tlsa_authenticated w = 0 \/
    v4_authenticated w = 0 \/ v6_authenticated w = 0)) \/
  (CAfile cfg = None /\ w_set_default_verify_paths w = 0) \/
  (CAfile cfg <> None /\ w_load_verify_locations w = 0) \/
  w_SSL_CTX_dane_enable w <= 0.

Definition is_SSL_CTX_new (e : event) : bool :=
  match e with Ev_SSL_CTX_new => true | _ => false end.

Definition is_SSL_CTX_free (e : event) : bool :=
  match e with Ev_SSL_CTX_free => true | _ => false end.

Definition is_freeaddrinfo (e : event) : bool :=
  match e with Ev_freeaddrinfo => true | _ => false end.

Definition is_free_tlsa (e : event) : bool :=
  match e with Ev_free_tlsa => true | _ => false end.

Definition is_resolver_deep_free (e : event) : bool :=
  match e with Ev_resolver_deep_free => true | _ => false end.

(** ** The name check of a session *)

(** The labels of a DNS name: its parts between the dots. *)
Fixpoint labels (s : string) : list string :=
  match s with
  | EmptyString => [EmptyString]
  | String c r =>
      if Ascii.eqb c "."%char then EmptyString :: labels r
      else match labels r with
           | l :: ls => String c l :: ls
           | [] => [String c EmptyString]
           end
  end.

Definition has_star (s : string) : bool :=
  existsb (Ascii.eqb "*"%char) (chars s).

(** A label with a wildcard that is not the whole label, as the [f*] of
    [f*.example.com]. *)
Definition partial_wildcard_label (l : string) : bool :=
  has_star l && negb (String.eqb l "*").

Definition has_partial_wildcard (name : string) : bool :=
  existsb partial_wildcard_label (labels name).

(** [p] with each [*] standing for any characters matches [h]. *)
Fixpoint glob (p h : list Ascii.ascii) : bool :=
  match p with
  | [] => is_nil h
  | c :: p' =>
      if Ascii.eqb c "*"%char then
        (fix any (h : list Ascii.ascii) : bool :=
           glob p' h || match h with [] => false | _ :: h' => any h' end) h
      else
        match h with
        | [] => false
        | d :: h' => Ascii.eqb c d && glob p' h'
        end
  end.

Fixpoint same_labels (l1 l2 : list string) : bool :=
  match l1, l2 with
  | [], [] => true
  | a :: l1', b :: l2' => String.eqb a b && same_labels l1' l2'
  | _, _ => false
  end.

(** Modelled from the spec: the name check of the TLS library, which is
    not part of src/ (the program only configures it, lines 401 and
    415).  The spec asks for standard hostname verification with the
    no-partial-label-wildcard policy, under which a partial wildcard
    label must never match.  Standard verification compares label by
    label; a wildcard counts in the left-most label only and stands for
    part of one non-empty label; with
    [X509_CHECK_FLAG_NO_PARTIAL_WILDCARDS] among the flags only a label
    that is the wildcard alone is a wildcard.  Characters are compared
    as they are. *)
Definition label_matches (flags : Z) (pl hl : string) : bool :=
  if has_star pl then
    negb (String.eqb hl EmptyString) &&
    (if Z.land flags X509_CHECK_FLAG_NO_PARTIAL_WILDCARDS =? 0
     then glob (chars pl) (chars hl)
     else String.eqb pl "*")
  else String.eqb pl hl.

Definition name_matches (flags : Z) (name host : string) : bool :=
  match labels name, labels host with
  | pl :: prest, hl :: hrest =>
      label_matches flags pl hl && same_labels prest hrest
  | _, _ => false
  end.

(** What [SSL_set1_host] and [SSL_set_hostflags] have asked for on the
    session [s]: the certificate name [name] passes the name check of
    [s].  A session with no host set has no name check. *)
Definition session_accepts_name (s : SSL) (name : string) : bool :=
  match ssl_verify_host s with
  | Some h => name_matches (ssl_hostflags s) name h
  | None => true
  end.

(** ** More sample data *)

(** A command line that has its options before its arguments, so that
    [getopt] leaves [argv] as it is. *)
Definition sample_invocation (opts : list getopt_result) (optind : nat)
    (args : list string) : invocation :=
  mk_invocation args opts optind args (fun _ => 443) STARTTLS_NONE.

(** * Basic facts *)

(** ** C integers *)

Lemma wrap_int_in_range (z : Z) :
  -2147483648 <= z <= INT_MAX -> wrap_int z = z.
Proof.
  unfold wrap_int, INT_MAX. intros Hz.
  rewrite Z.mod_small by lia. lia.
Qed.

Lemma incr_int_in_range (c : Z) :
  0 <= c < INT_MAX -> incr_int c = c + 1.
Proof.
  unfold incr_int, INT_MAX. intros Hc.
  apply wrap_int_in_range. unfold INT_MAX. lia.
Qed.

Lemma iter_incr_int_in_range (k : nat) (c : Z) :
  0 <= c -> c + Z.of_nat k <= INT_MAX ->
  Nat.iter k incr_int c = c + Z.of_nat k.
Proof.
  induction k as [|k IH]; intros H0 Hk.
  - simpl. lia.
  - rewrite Nat.iter_succ, IH by lia.
    rewrite incr_int_in_range by lia. lia.
Qed.

(** ** How a piece of the loop body moves the state *)

Lemma steps_refl P st : steps P st st.
Proof.
  repeat split. exists []. split; [now rewrite app_nil_r | constructor].
Qed.

Lemma steps_trans P st1 st2 st3 :
  steps P st1 st2 -> steps P st2 st3 -> steps P st1 st3.
Proof.
  intros (Ha & Hl & Hc & n1 & Ht1 & Hf1) (Ha' & Hl' & Hc' & n2 & Ht2 & Hf2).
  repeat split; try congruence.
  exists (n1 ++ n2). split.
  - rewrite Ht2, Ht1. now rewrite app_assoc.
  - apply Forall_app. now split.
Qed.

Lemma steps_emit P e st st' :
  steps P st st' -> P e -> steps P st (emit e st').
Proof.
  intros (Ha & Hl & Hc & n & Ht & Hf) He.
  repeat split; simpl; trivial.
  exists (n ++ [e]). split.
  - rewrite Ht. now rewrite app_assoc.
  - apply Forall_app. split; [assumption | now constructor].
Qed.

Lemma steps_incr_fail P st st' : steps P st st' -> steps P st (incr_fail st').
Proof. intros (Ha & Hl & Hc & n & Ht & Hf). repeat split; simpl; eauto. Qed.

Lemma steps_incr_success P st st' :
  steps P st st' -> steps P st (incr_success st').
Proof. intros (Ha & Hl & Hc & n & Ht & Hf). repeat split; simpl; eauto. Qed.

Lemma steps_incr_tlsa_usable P st st' :
  steps P st st' -> steps P st (incr_tlsa_usable st').
Proof. intros (Ha & Hl & Hc & n & Ht & Hf). repeat split; simpl; eauto. Qed.

(** ** The events of the address loop *)

Create HintDb danetls discriminated.
#[local] Hint Constructors loop_event : danetls.
#[local] Hint Resolve steps_refl steps_emit steps_incr_fail steps_incr_success
  steps_incr_tlsa_usable : danetls.

Lemma tlsa_add_loop_steps cfg o rps i ssl st :
  attempt_dane st = true ->
  session_bound cfg true ssl ->
  steps (loop_event cfg true) st (snd (tlsa_add_loop o rps i ssl st)) /\
  session_bound cfg true (fst (tlsa_add_loop o rps i ssl st)).
Proof.
  revert i ssl st.
  induction rps as [|rp next IH]; intros i ssl st Hd Hs; simpl.
  - split; auto with danetls.
  - destruct (o_SSL_dane_tlsa_add o i <? 0);
      [| destruct (o_SSL_dane_tlsa_add o i =? 0)].
    + destruct (IH (S i) ssl
        (free_close_fail (emit (Ev_stdout "SSL_dane_tlsa_add() failed.")
           (emit (Ev_SSL_dane_tlsa_add rp (o_SSL_dane_tlsa_add o i)) st))))
        as [H1 H2]; trivial.
      split; [| exact H2].
      eapply steps_trans; [| exact H1].
      unfold free_close_fail. auto 10 with danetls.
    + destruct (IH (S i) ssl
        (emit (Ev_unusable_tlsa rp)
           (emit (Ev_SSL_dane_tlsa_add rp (o_SSL_dane_tlsa_add o i)) st)))
        as [H1 H2]; trivial.
      split; [| exact H2].
      eapply steps_trans; [| exact H1]. auto 10 with danetls.
    + destruct (IH (S i) (add_tlsa rp ssl)
        (incr_tlsa_usable
           (emit (Ev_SSL_dane_tlsa_add rp (o_SSL_dane_tlsa_add o i)) st)))
        as [H1 H2]; trivial.
      split; [| exact H2].
      eapply steps_trans; [| exact H1]. auto 10 with danetls.
Qed.

Lemma SSL_shutdown_loop_steps cfg dane fuel rc i st st' :
  SSL_shutdown_loop fuel rc i st = Some st' ->
  steps (loop_event cfg dane) st st'.
Proof.
  revert i st.
  induction fuel as [|fuel IH]; intros i st H; simpl in H; [discriminate |].
  destruct (rc i =? 0).
  - apply IH in H. eapply steps_trans; [| exact H]. auto with danetls.
  - injection H as <-. auto with danetls.
Qed.

Lemma bind_session_steps cfg o st :
  match bind_session cfg o st with
  | inl st' => steps (loop_event cfg (attempt_dane st)) st st'
  | inr (ssl, st') =>
      steps (loop_event cfg (attempt_dane st)) st st' /\
      session_bound cfg (attempt_dane st) ssl
  end.
Proof.
  unfold bind_session, bind_host, free_close_fail.
  destruct (attempt_dane st) eqn:Hd.
  - destruct (o_SSL_dane_enable o <=? 0); [auto 10 with danetls |].
    unfold set_client_side. cbn [ssl_dane_host ssl_verify_host ssl_sni ssl_tlsa].
    cbn [attempt_dane emit]. rewrite Hd.
    set (ssl := mk_SSL _ _ _ _ _ _ _). set (st1 := emit _ (emit _ st)).
    destruct (tlsa_add_loop_steps cfg o (tlsa_rdata_list st1) 0 ssl st1)
      as [H1 H2]; [exact Hd | repeat split |].
    destruct (tlsa_add_loop o (tlsa_rdata_list st1) 0 ssl st1) as [ssl' st'].
    split; [| exact H2].
    eapply steps_trans; [| exact H1]. subst st1. auto 10 with danetls.
  - destruct (o_SSL_set1_host o =? 1); cbn [negb]; [| auto 10 with danetls].
    unfold set_client_side. cbn [attempt_dane emit]. rewrite Hd.
    split; [auto 10 with danetls | repeat split].
Qed.

Lemma tls_connect_steps fuel cfg dane o ssl st st' :
  session_bound cfg dane ssl ->
  tls_connect fuel o ssl st = Some st' ->
  steps (loop_event cfg dane) st st'.
Proof.
  unfold tls_connect, free_close_fail, classify. intros Hs.
  destruct (o_SSL_connect o <=? 0).
  { intros H; injection H as <-. auto 10 with danetls. }
  destruct (SSL_shutdown_loop _ _ _ _) as [st2|] eqn:Hsh; [| discriminate].
  intros H; injection H as <-.
  apply (SSL_shutdown_loop_steps cfg dane) in Hsh.
  apply steps_emit; [| constructor]. apply steps_emit; [| constructor].
  eapply steps_trans; [| exact Hsh].
  destruct (o_SSL_get_verify_result o =? X509_V_OK); auto 10 with danetls.
Qed.

Lemma handshake_steps fuel cfg o ssl st st' :
  session_bound cfg (attempt_dane st) ssl ->
  handshake fuel cfg o ssl st = Some st' ->
  steps (loop_event cfg (attempt_dane st)) st st'.
Proof.
  unfold handshake, free_close_fail. intros Hs.
  destruct (is_MODE_DANE (auth_mode cfg) && (count_tlsa_usable st =? 0)).
  { intros H; injection H as <-. auto 10 with danetls. }
  assert (Hev : starttls cfg <> STARTTLS_NONE ->
    steps (loop_event cfg (attempt_dane st)) st
      (emit (Ev_do_starttls (starttls cfg) (o_do_starttls o)) st))
    by (intros Hne; auto with danetls).
  destruct (starttls cfg) eqn:Hstart;
    [ now apply tls_connect_steps | | | ];
    (destruct (o_do_starttls o); cbn [negb]; intros H;
     [ eapply steps_trans; [apply Hev; discriminate |];
       eapply tls_connect_steps; [| exact H]; exact Hs
     | injection H as <-;
       do 4 (apply steps_incr_fail || (apply steps_emit; [| constructor]));
       apply Hev; discriminate ]).
Qed.

Lemma connect_address_steps fuel cfg a o st st' :
  connect_address fuel cfg a o st = Some st' ->
  steps (loop_event cfg (attempt_dane st)) st st'.
Proof.
  unfold connect_address.
  destruct (o_socket o =? -1).
  { intros H; injection H as <-. auto 10 with danetls. }
  destruct (o_connect o =? -1).
  { intros H; injection H as <-. auto 10 with danetls. }
  destruct (o_SSL_new o); cbn [negb].
  2:{ intros H; injection H as <-. auto 10 with danetls. }
  set (st1 := emit (Ev_SSL_new true) _).
  assert (H1 : steps (loop_event cfg (attempt_dane st)) st st1)
    by (subst st1; auto 10 with danetls).
  pose proof (bind_session_steps cfg o st1) as Hb.
  change (attempt_dane st1) with (attempt_dane st) in Hb.
  destruct (bind_session cfg o st1) as [st2 | [ssl st2]].
  - intros H; injection H as <-. eapply steps_trans; eauto.
  - destruct Hb as [Hb Hs]. intros H.
    eapply steps_trans; [exact H1 |]. eapply steps_trans; [exact Hb |].
    assert (Ha : attempt_dane st2 = attempt_dane st) by apply Hb.
    rewrite <- Ha in *. eapply handshake_steps; eauto.
Qed.

Lemma address_loop_steps fuel cfg gaip st st' :
  address_loop fuel cfg gaip st = Some st' ->
  steps (loop_event cfg (attempt_dane st)) st st'.
Proof.
  revert st.
  induction gaip as [|[a o] next IH]; intros st H; simpl in H.
  - injection H as <-. apply steps_refl.
  - destruct (connect_address fuel cfg a o st) as [st1|] eqn:H1; [| discriminate].
    apply connect_address_steps in H1. apply IH in H.
    assert (Ha : attempt_dane st1 = attempt_dane st) by apply H1.
    rewrite Ha in H. eapply steps_trans; eauto.
Qed.

(** ** The run before and after the loop *)

Lemma cleanup_spec st :
  cleanup st =
    (exit_status (count_success st) (count_fail st),
     mk_state (count_success st) (count_fail st) (count_tlsa_usable st)
       (attempt_dane st) (tlsa_rdata_list st) (ctx st)
       (trace st ++ cleanup_events (ctx st))).
Proof.
  unfold cleanup, cleanup_events, emit; cbn -[exit_status].
  destruct (ctx st); cbn -[exit_status]; rewrite <- ?app_assoc; reflexivity.
Qed.

Ltac prelude_cases cfg w :=
  unfold prelude, dns_queries, select_auth, init_ctx, load_verify;
  destruct (w_resolver w) eqn:?; destruct (auth_mode cfg) eqn:?;
  destruct (w_tlsa w) eqn:?;
  repeat (cbn;
          match goal with
          | |- context [if ?c then _ else _] => destruct c eqn:?
          | |- context [match CAfile cfg with _ => _ end] =>
              destruct (CAfile cfg)
          end);
  cbn.

Ltac flags_norm :=
  repeat match goal with
         | H : negb _ = true |- _ => apply negb_true_iff in H
         | H : negb _ = false |- _ => apply negb_false_iff in H
         | H : (_ || _) = true |- _ => apply orb_true_iff in H; destruct H
         | H : (_ || _) = false |- _ => apply orb_false_iff in H; destruct H
         | H : (_ =? _) = true |- _ => apply Z.eqb_eq in H
         | H : (_ =? _) = false |- _ => apply Z.eqb_neq in H
         end.

Lemma prelude_counters cfg w :
  count_success (snd (prelude cfg w)) = 0 /\
  count_fail (snd (prelude cfg w)) = 0 /\
  count_tlsa_usable (snd (prelude cfg w)) = 0.
Proof. prelude_cases cfg w; repeat split. Qed.

Lemma prelude_trace cfg w :
  existsb contacts_address (trace (snd (prelude cfg w))) = false.
Proof. prelude_cases cfg w; reflexivity. Qed.

Lemma prelude_tlsa_rdata_list cfg w :
  tlsa_rdata_list (snd (prelude cfg w)) =
    if w_resolver w && negb (is_MODE_PKIX (auth_mode cfg)) then w_tlsa w else [].
Proof. prelude_cases cfg w; cbn; congruence. Qed.

(** The shape of every finished run: the prelude, the events of the
    loop, the cleanup. *)
Lemma main_shape fuel cfg w code st :
  main fuel cfg w = Some (code, st) ->
  let st0 := snd (prelude cfg w) in
  code = exit_status (count_success st) (count_fail st) /\
  attempt_dane st = attempt_dane st0 /\
  tlsa_rdata_list st = tlsa_rdata_list st0 /\
  exists new,
    trace st = trace st0 ++ new ++ cleanup_events (ctx st0) /\
    Forall (loop_event cfg (attempt_dane st0)) new /\
    (fst (prelude cfg w) = true -> new = []).
Proof.
  unfold main. destruct (prelude cfg w) as [goto st0] eqn:Hp. cbn [fst snd].
  destruct goto.
  - rewrite cleanup_spec. intros H; injection H as <- <-. cbn.
    repeat split. exists []. repeat split; auto.
  - destruct (address_loop fuel cfg (w_addresses w) st0) as [st1|] eqn:Hl;
      [| discriminate].
    rewrite cleanup_spec. intros H; injection H as <- <-. cbn.
    apply address_loop_steps in Hl.
    destruct Hl as (Ha & Ht & Hc & new & Hn & Hf).
    repeat split; trivial.
    exists new. rewrite Hn, Hc, <- app_assoc. repeat split; trivial.
    discriminate.
Qed.

Lemma In_cleanup_events e c :
  In e (cleanup_events c) -> contacts_address e = false.
Proof.
  unfold cleanup_events. destruct c; simpl; intuition (subst; reflexivity).
Qed.

(** An event of the loop found in the trace of a finished run was
    produced by the loop, under the verdict of the prelude. *)
Lemma main_loop_event fuel cfg w code st e :
  main fuel cfg w = Some (code, st) ->
  In e (trace st) -> contacts_address e = true ->
  loop_event cfg (attempt_dane (snd (prelude cfg w))) e /\
  fst (prelude cfg w) = false.
Proof.
  intros Hm Hin Hc.
  destruct (main_shape _ _ _ _ _ Hm) as (_ & _ & _ & new & Ht & Hf & Hg).
  rewrite Ht in Hin.
  apply in_app_or in Hin as [Hin | Hin].
  { pose proof (prelude_trace cfg w) as Hp.
    assert (Hx : existsb contacts_address (trace (snd (prelude cfg w))) = true)
      by (apply existsb_exists; eauto).
    congruence. }
  apply in_app_or in Hin as [Hin | Hin].
  - split.
    + rewrite Forall_forall in Hf. auto.
    + destruct (fst (prelude cfg w)); [| reflexivity].
      rewrite Hg in Hin by reflexivity. destruct Hin.
  - apply In_cleanup_events in Hin. congruence.
Qed.

(** ** Termination *)

Lemma SSL_shutdown_loop_terminates fuel rc i st :
  (exists n, (n < fuel)%nat /\ rc (i + n)%nat <> 0) ->
  exists st', SSL_shutdown_loop fuel rc i st = Some st'.
Proof.
  revert i st.
  induction fuel as [|fuel IH]; intros i st (n & Hn & Hrc); [lia |].
  simpl. destruct (rc i =? 0) eqn:Hz; [| eauto].
  apply IH. destruct n as [|n].
  - rewrite Nat.add_0_r in Hrc. apply Z.eqb_eq in Hz. contradiction.
  - exists n. split; [lia |]. now rewrite Nat.add_succ_comm.
Qed.

Lemma connect_address_terminates fuel cfg a o st :
  shutdown_answers fuel o ->
  exists st', connect_address fuel cfg a o st = Some st'.
Proof.
  intros Hs. unfold connect_address.
  destruct (o_socket o =? -1); [eauto |].
  destruct (o_connect o =? -1); [eauto |].
  destruct (negb (o_SSL_new o)); [eauto |].
  destruct (bind_session cfg o _) as [st1 | [ssl st1]]; [eauto |].
  assert (Ht : exists st', tls_connect fuel o ssl st1 = Some st').
  { unfold tls_connect. destruct (o_SSL_connect o <=? 0); [eauto |].
    edestruct (SSL_shutdown_loop_terminates fuel (o_SSL_shutdown o) 0)
      as [st2 H2]; [exact Hs |].
    rewrite H2. eauto. }
  assert (Ht' : forall e, exists st', tls_connect fuel o ssl (emit e st1) = Some st').
  { intros e. unfold tls_connect. destruct (o_SSL_connect o <=? 0); [eauto |].
    edestruct (SSL_shutdown_loop_terminates fuel (o_SSL_shutdown o) 0)
      as [st2 H2]; [exact Hs |].
    rewrite H2. eauto. }
  unfold handshake.
  destruct (is_MODE_DANE (auth_mode cfg) && (count_tlsa_usable st1 =? 0));
    [eauto |].
  destruct (starttls cfg); trivial; destruct (negb (o_do_starttls o)); eauto.
Qed.

Lemma address_loop_terminates fuel cfg gaip st :
  Forall (fun ao => shutdown_answers fuel (snd ao)) gaip ->
  exists st', address_loop fuel cfg gaip st = Some st'.
Proof.
  intros Hall. revert st.
  induction Hall as [|[a o] next Ho _ IH]; intros st; simpl; [eauto |].
  destruct (connect_address_terminates fuel cfg a o st Ho) as [st1 ->].
  apply IH.
Qed.

Lemma main_terminates fuel cfg w :
  Forall (fun ao => shutdown_answers fuel (snd ao)) (w_addresses w) ->
  exists code st, main fuel cfg w = Some (code, st).
Proof.
  intros Hall. unfold main.
  destruct (prelude cfg w) as [[|] st0].
  - destruct (cleanup st0) as [code st]. eauto.
  - destruct (address_loop_terminates fuel cfg _ st0 Hall) as [st1 ->].
    destruct (cleanup st1) as [code st]. eauto.
Qed.

(** ** Collecting and counting over the loops *)

Lemma calls_emit p e st :
  calls p (trace (emit e st)) =
    (calls p (trace st) + if p e then 1 else 0)%nat.
Proof.
  unfold calls. cbn. rewrite filter_app, length_app. cbn.
  destruct (p e); reflexivity.
Qed.

Lemma calls_app p l1 l2 : calls p (l1 ++ l2) = (calls p l1 + calls p l2)%nat.
Proof. unfold calls. now rewrite filter_app, length_app. Qed.

Lemma collect_emit {X : Type} (f : event -> list X) e st :
  collect f (trace (emit e st)) = collect f (trace st) ++ f e.
Proof.
  unfold collect. cbn. rewrite flat_map_app. cbn. now rewrite app_nil_r.
Qed.

(** The TLSA loop adds nothing to what [f] collects when [f] ignores its
    five kinds of events. *)
Lemma tlsa_add_loop_collect {X : Type} (f : event -> list X) o rps i ssl st :
  (forall rp rc, f (Ev_SSL_dane_tlsa_add rp rc) = []) ->
  (forall rp, f (Ev_unusable_tlsa rp) = []) ->
  (forall m, f (Ev_stdout m) = []) ->
  f Ev_SSL_free = [] -> f Ev_close = [] ->
  collect f (trace (snd (tlsa_add_loop o rps i ssl st))) = collect f (trace st).
Proof.
  intros Ha Hu Ho Hf Hc. revert i ssl st.
  induction rps as [|rp next IH]; intros i ssl st; simpl; [reflexivity |].
  destruct (o_SSL_dane_tlsa_add o i <? 0);
    [| destruct (o_SSL_dane_tlsa_add o i =? 0)];
    rewrite IH; unfold free_close_fail;
    cbn [trace incr_fail incr_tlsa_usable];
    rewrite ?collect_emit, ?Ha, ?Hu, ?Ho, ?Hf, ?Hc, ?app_nil_r; reflexivity.
Qed.

Lemma SSL_shutdown_loop_collect {X : Type} (f : event -> list X)
    fuel rc i st st' :
  (forall r, f (Ev_SSL_shutdown r) = []) ->
  SSL_shutdown_loop fuel rc i st = Some st' ->
  collect f (trace st') = collect f (trace st).
Proof.
  intros Hs. revert i st.
  induction fuel as [|fuel IH]; intros i st H; simpl in H; [discriminate |].
  destruct (rc i =? 0).
  - apply IH in H. now rewrite H, collect_emit, Hs, app_nil_r.
  - injection H as <-. now rewrite collect_emit, Hs, app_nil_r.
Qed.

(** The same for counting, and with the failed additions counted in:
    each of them appends a message, an [SSL_free] and a [close]. *)
Lemma tlsa_add_loop_calls_any p o rps i ssl st :
  (forall rp rc, p (Ev_SSL_dane_tlsa_add rp rc) = false) ->
  (forall rp, p (Ev_unusable_tlsa rp) = false) ->
  calls p (trace (snd (tlsa_add_loop o rps i ssl st))) =
    (calls p (trace st) +
     tlsa_add_failures o rps i *
     calls p [Ev_stdout "SSL_dane_tlsa_add() failed."; Ev_SSL_free; Ev_close])%nat.
Proof.
  intros Ha Hu. revert i ssl st.
  induction rps as [|rp next IH]; intros i ssl st; simpl; [lia |].
  destruct (o_SSL_dane_tlsa_add o i <? 0);
    [| destruct (o_SSL_dane_tlsa_add o i =? 0)];
    rewrite IH; unfold free_close_fail;
    cbn [trace incr_fail incr_tlsa_usable];
    rewrite ?calls_emit, ?Ha, ?Hu; unfold calls; cbn [filter];
    destruct (p (Ev_stdout "SSL_dane_tlsa_add() failed."));
    destruct (p Ev_SSL_free); destruct (p Ev_close); cbn [List.length]; lia.
Qed.

Lemma SSL_shutdown_loop_calls_any p fuel rc i st st' :
  (forall r, p (Ev_SSL_shutdown r) = false) ->
  SSL_shutdown_loop fuel rc i st = Some st' ->
  calls p (trace st') = calls p (trace st).
Proof.
  intros Hs. revert i st.
  induction fuel as [|fuel IH]; intros i st H; simpl in H; [discriminate |].
  destruct (rc i =? 0).
  - apply IH in H. rewrite H, calls_emit, Hs. lia.
  - injection H as <-. rewrite calls_emit, Hs. lia.
Qed.

(** The paths through one iteration.  [on_tlsa l s t] is run with the
    arguments of the TLSA loop before its result is named, [on_shutdown
    H] with the equation of the shutdown loop; they bring in what is
    known of the two loops. *)
Ltac iteration_paths on_tlsa on_shutdown :=
  let H := fresh "Hrun" in
  let Hd := fresh "Hdane" in
  let Hsh := fresh "Hshut" in
  unfold connect_address;
  destruct (o_socket _ =? -1) eqn:?Hsocket;
  [ intros H; injection H as <-
  | destruct (o_connect _ =? -1) eqn:?Hconnect;
    [ intros H; injection H as <-
    | destruct (o_SSL_new _) eqn:?Hnew; cbn [negb];
      [ unfold bind_session, bind_host, set_client_side;
        cbn [attempt_dane emit];
        match goal with
        | |- context [if attempt_dane ?s then _ else _] =>
            destruct (attempt_dane s) eqn:Hd
        end;
        [ destruct (o_SSL_dane_enable _ <=? 0) eqn:?Hbind;
          [ intros H; injection H as <-
          | cbn [attempt_dane emit tlsa_rdata_list];
            rewrite ?Hd;
            match goal with
            | |- context [tlsa_add_loop ?o ?l 0 ?s ?t] =>
                on_tlsa o l s t;
                destruct (tlsa_add_loop o l 0 s t) as [?ssl1 ?st1]
            end ]
        | destruct (o_SSL_set1_host _ =? 1) eqn:?Hbind; cbn [negb];
          [ cbn [attempt_dane emit]; rewrite ?Hd
          | intros H; injection H as <- ] ]
      | intros H; injection H as <- ] ] ];
  try (unfold handshake;
       match goal with
       | |- context [is_MODE_DANE ?m && (count_tlsa_usable ?s =? 0)] =>
           destruct (is_MODE_DANE m && (count_tlsa_usable s =? 0)) eqn:?Husable
       end;
       [ intros H; injection H as <-
       | match goal with
         | |- context [starttls ?c] => destruct (starttls c) eqn:?Hstarttls
         end;
         try (destruct (o_do_starttls _) eqn:?Hdo; cbn [negb];
              [| intros H; injection H as <- ]);
         try (unfold tls_connect;
              destruct (o_SSL_connect _ <=? 0) eqn:?Hhandshake;
              [ intros H; injection H as <-
              | match goal with
                | |- context [SSL_shutdown_loop ?f ?r 0 ?s] =>
                    destruct (SSL_shutdown_loop f r 0 s) as [?st2|] eqn:Hsh;
                    [ on_shutdown Hsh; unfold classify in *;
                      destruct (o_SSL_get_verify_result _ =? X509_V_OK)
                        eqn:?Hverify;
                      intros H; injection H as <-
                    | discriminate ]
                end ]) ]).

Lemma trace_incr_fail st : trace (incr_fail st) = trace st.
Proof. reflexivity. Qed.

Lemma trace_incr_success st : trace (incr_success st) = trace st.
Proof. reflexivity. Qed.

Lemma trace_incr_tlsa_usable st : trace (incr_tlsa_usable st) = trace st.
Proof. reflexivity. Qed.

(** The trace of a nest of [emit]s and increments, event by event. *)
Ltac trace_norm :=
  unfold free_close_fail;
  repeat (rewrite trace_incr_fail || rewrite trace_incr_success ||
          rewrite trace_incr_tlsa_usable || rewrite collect_emit ||
          rewrite calls_emit).

Ltac trace_norm_in H :=
  cbn [fst snd] in H; unfold free_close_fail in H;
  repeat (rewrite trace_incr_fail in H || rewrite trace_incr_success in H ||
          rewrite trace_incr_tlsa_usable in H || rewrite collect_emit in H ||
          rewrite calls_emit in H).

Ltac collect_finish :=
  trace_norm;
  repeat match goal with
         | H : collect _ (trace _) = _ |- _ =>
             trace_norm_in H; rewrite H; clear H
         end;
  cbn [app socket_address connect_session]; rewrite ?app_nil_r;
  try reflexivity.

Ltac collect_paths f :=
  iteration_paths
    ltac:(fun o l s t =>
      let Ht := fresh "Htlsa" in
      pose proof (tlsa_add_loop_collect f o l 0 s t
                    (fun _ _ => eq_refl) (fun _ => eq_refl) (fun _ => eq_refl)
                    eq_refl eq_refl) as Ht; cbn [snd] in Ht)
    ltac:(fun Hs => apply (SSL_shutdown_loop_collect f) in Hs; [| reflexivity]).

(** * The claims *)

(** ** The verdict on DANE *)

(** C1.  For every mode and every value of the four DNSSEC flags, the
    state from which the address loop starts has [attempt_dane] set if and
    only if the mode is not PKIX-only, the TLSA list is not empty, the
    TLSA answer and both address answers are authenticated and nothing is
    bogus or indeterminate.  The verdict is taken once, before the loop:
    a finished run ends with the very same [attempt_dane], and each
    session of the run was bound accordingly ([SSL_dane_enable] is called
    only under a positive verdict, [SSL_set1_host] only under a negative
    one).  The TLSA list is the answer of [get_tlsa] when that was asked
    (a resolver exists and the mode is not PKIX-only) and empty
    otherwise. *)
Theorem attempt_dane_decided_once (cfg : config) (w : world) :
  let st0 := snd (prelude cfg w) in
  (attempt_dane st0 = true <-> dane_conditions cfg w st0) /\
  tlsa_rdata_list st0 =
    (if w_resolver w && negb (is_MODE_PKIX (auth_mode cfg))
     then w_tlsa w else []) /\
  (forall fuel code st,
     main fuel cfg w = Some (code, st) ->
     attempt_dane st = attempt_dane st0 /\
     (forall h rc, In (Ev_SSL_dane_enable h rc) (trace st) ->
                   attempt_dane st0 = true) /\
     (forall h rc, In (Ev_SSL_set1_host h rc) (trace st) ->
                   attempt_dane st0 = false)).
Proof.
  split; [| split].
  - unfold dane_conditions.
    prelude_cases cfg w;
      cbn [snd attempt_dane tlsa_rdata_list set_attempt_dane set_ctx emit
           init_state set_tlsa_rdata_list];
      flags_norm;
      (split; [ intros Hx; try discriminate Hx; repeat split;
                  (assumption || discriminate)
              | intros (H1 & H2 & H3 & H4 & H5 & H6); congruence ]).
  - apply prelude_tlsa_rdata_list.
  - intros fuel code st Hm.
    split; [apply (main_shape _ _ _ _ _ Hm) | split].
    + intros h rc Hin.
      destruct (main_loop_event _ _ _ _ _ _ Hm Hin eq_refl) as [He _].
      inversion He; assumption.
    + intros h rc Hin.
      destruct (main_loop_event _ _ _ _ _ _ Hm Hin eq_refl) as [He _].
      inversion He; assumption.
Qed.

Lemma attempt_dane_decided_once_witness :
  let cfg := sample_config MODE_BOTH in
  let w := world_two_addresses in
  dane_conditions cfg w (snd (prelude cfg w)) /\
  attempt_dane (snd (prelude cfg w)) = true /\
  exists code st,
    main 2 cfg w = Some (code, st) /\ attempt_dane st = true /\
    forall h rc, ~ In (Ev_SSL_set1_host h rc) (trace st).
Proof.
  intros cfg w.
  destruct (attempt_dane_decided_once cfg w) as (Hiff & _ & Hrun).
  assert (Hc : dane_conditions cfg w (snd (prelude cfg w)))
    by (unfold dane_conditions; cbn; repeat split; discriminate).
  assert (Ha : attempt_dane (snd (prelude cfg w)) = true) by apply Hiff, Hc.
  split; [exact Hc |]. split; [exact Ha |].
  destruct (main 2 cfg w) as [[code st]|] eqn:E;
    [| vm_compute in E; discriminate E].
  exists code, st. split; [reflexivity |].
  destruct (Hrun 2%nat code st E) as (Hsame & _ & Hpkix).
  split; [congruence |].
  intros h rc Hin. apply Hpkix in Hin. congruence.
Defined.

(** ** The return status *)

(** A run that leaves the prelude through [goto cleanup] returns 2
    without having touched any address. *)
Lemma main_aborted fuel cfg w :
  fst (prelude cfg w) = true ->
  let st0 := snd (prelude cfg w) in
  main fuel cfg w =
    Some (2, mk_state 0 0 0 (attempt_dane st0) (tlsa_rdata_list st0) (ctx st0)
               (trace st0 ++ cleanup_events (ctx st0))).
Proof.
  intros Hg. destruct (prelude_counters cfg w) as (Hs & Hf & Hu).
  unfold main. destruct (prelude cfg w) as [goto st0]. cbn [fst snd] in *.
  subst goto. rewrite cleanup_spec, Hs, Hf, Hu. reflexivity.
Qed.

Lemma existsb_contacts_app l1 l2 :
  existsb contacts_address l1 = false ->
  existsb contacts_address l2 = false ->
  existsb contacts_address (l1 ++ l2) = false.
Proof. intros H1 H2. now rewrite existsb_app, H1, H2. Qed.

Lemma cleanup_events_no_contact c :
  existsb contacts_address (cleanup_events c) = false.
Proof. now destruct c. Qed.

(** C2.  The return status is the function [exit_status] of the two
    counters: 0 when [count_success > 0] and [count_fail = 0], 1 when both
    are positive, 2 when [count_success = 0].  Every finished run returns
    [exit_status] of its final counters, and a run finishes as soon as
    each session's shutdown loop gets a non-zero answer; a run without
    addresses and a run aborted before the loop return 2. *)
Theorem exit_status_of_counters :
  (forall cs cf, 0 < cs -> cf = 0 -> exit_status cs cf = 0) /\
  (forall cs cf, 0 < cs -> 0 < cf -> exit_status cs cf = 1) /\
  (forall cf, exit_status 0 cf = 2) /\
  (forall fuel cfg w code st,
     main fuel cfg w = Some (code, st) ->
     code = exit_status (count_success st) (count_fail st)) /\
  (forall fuel cfg w,
     Forall (fun ao => shutdown_answers fuel (snd ao)) (w_addresses w) ->
     exists code st, main fuel cfg w = Some (code, st)) /\
  (forall fuel cfg w,
     w_addresses w = [] -> exists st, main fuel cfg w = Some (2, st)) /\
  (forall fuel cfg w,
     fst (prelude cfg w) = true ->
     exists st, main fuel cfg w = Some (2, st) /\
                existsb contacts_address (trace st) = false).
Proof.
  split; [| split; [| split; [| split; [| split; [| split]]]]].
  - intros cs cf Hs ->. unfold exit_status.
    apply Z.ltb_lt in Hs. now rewrite Hs.
  - intros cs cf Hs Hf. unfold exit_status.
    apply Z.ltb_lt in Hs. rewrite Hs.
    assert (Hn : (cf =? 0) = false) by (apply Z.eqb_neq; lia).
    now rewrite Hn.
  - reflexivity.
  - intros fuel cfg w code st Hm. apply (main_shape _ _ _ _ _ Hm).
  - intros fuel cfg w. apply main_terminates.
  - intros fuel cfg w Hnil.
    destruct (prelude_counters cfg w) as (Hs & Hf & Hu).
    unfold main. rewrite Hnil.
    destruct (prelude cfg w) as [[|] st0]; cbn [snd address_loop] in *;
      rewrite cleanup_spec, Hs, Hf; eauto.
  - intros fuel cfg w Hg. rewrite (main_aborted fuel cfg w Hg).
    eexists. split; [reflexivity |]. cbn [trace].
    apply existsb_contacts_app;
      [apply prelude_trace | apply cleanup_events_no_contact].
Qed.

Lemma exit_status_of_counters_witness :
  exit_status 2 0 = 0 /\ exit_status 1 1 = 1 /\
  (exists code st,
     main 2 (sample_config MODE_BOTH) world_two_addresses = Some (code, st) /\
     code = exit_status (count_success st) (count_fail st) /\ code = 1) /\
  (exists st, main 0 (sample_config MODE_BOTH) world_bogus = Some (2, st)).
Proof.
  destruct exit_status_of_counters as (H0 & H1 & _ & Hmain & _ & _ & Habort).
  split; [apply H0; [lia | reflexivity] |].
  split; [apply H1; lia |].
  split.
  - destruct (main 2 (sample_config MODE_BOTH) world_two_addresses)
      as [[code st]|] eqn:E; [| vm_compute in E; discriminate E].
    exists code, st. split; [reflexivity |].
    split; [exact (Hmain _ _ _ _ _ E) |].
    vm_compute in E. injection E as <- _. reflexivity.
  - destruct (Habort 0%nat (sample_config MODE_BOTH) world_bogus eq_refl)
      as (st & Hst & _).
    exists st. exact Hst.
Defined.

(** ** Fatal DNS evidence *)

(** C4.  When [dns_bogus_or_indeterminate] is set the run, in every mode,
    returns 2 without a single call for any address (no socket, no
    connect, no session): the trace is the DNS queries followed by the
    release of the address list and of the TLSA list; no SSL context has
    been allocated, so there is none to free. *)
Theorem bogus_aborts_run (fuel : nat) (cfg : config) (w : world) :
  dns_bogus_or_indeterminate w <> 0 ->
  exists st,
    main fuel cfg w = Some (2, st) /\
    existsb contacts_address (trace st) = false /\
    ctx st = false /\
    trace st =
      Ev_get_resolver ::
      (if w_resolver w
       then Ev_get_addresses ::
            (if is_MODE_PKIX (auth_mode cfg) then [] else [Ev_get_tlsa]) ++
            [Ev_resolver_deep_free]
       else []) ++
      [Ev_freeaddrinfo; Ev_free_tlsa].
Proof.
  intros Hb. apply Z.eqb_neq in Hb.
  assert (Hp : fst (prelude cfg w) = true /\
               ctx (snd (prelude cfg w)) = false /\
               trace (snd (prelude cfg w)) =
                 Ev_get_resolver ::
                 (if w_resolver w
                  then Ev_get_addresses ::
                       (if is_MODE_PKIX (auth_mode cfg) then [] else [Ev_get_tlsa]) ++
                       [Ev_resolver_deep_free]
                  else [])).
  { unfold prelude, dns_queries. rewrite Hb.
    destruct (w_resolver w); destruct (auth_mode cfg); cbn; auto. }
  destruct Hp as (Hg & Hc & Ht).
  rewrite (main_aborted fuel cfg w Hg).
  eexists. split; [reflexivity |]. cbn [trace ctx]. rewrite Hc.
  split; [| split; [reflexivity |]].
  - apply existsb_contacts_app; [apply prelude_trace | reflexivity].
  - rewrite Ht. unfold cleanup_events.
    destruct (w_resolver w); destruct (is_MODE_PKIX (auth_mode cfg));
      reflexivity.
Qed.

Lemma bogus_aborts_run_witness :
  dns_bogus_or_indeterminate world_bogus <> 0 /\
  exists st,
    main 0 (sample_config MODE_PKIX) world_bogus = Some (2, st) /\
    existsb contacts_address (trace st) = false /\
    trace st = [Ev_get_resolver; Ev_get_addresses; Ev_resolver_deep_free;
                Ev_freeaddrinfo; Ev_free_tlsa].
Proof.
  assert (H : dns_bogus_or_indeterminate world_bogus <> 0) by discriminate.
  split; [exact H |].
  destruct (bogus_aborts_run 0 (sample_config MODE_PKIX) world_bogus H)
    as (st & Hm & Hc & _ & Ht).
  exists st. repeat split; assumption.
Defined.

(** C5.  In DANE-only mode, when the TLSA query returns no record, the
    run returns 2 and makes no call for any address. *)
Theorem dane_only_without_tlsa (fuel : nat) (cfg : config) (w : world) :
  auth_mode cfg = MODE_DANE ->
  w_tlsa w = [] ->
  exists st,
    main fuel cfg w = Some (2, st) /\
    existsb contacts_address (trace st) = false /\
    count_success st = 0 /\ count_fail st = 0.
Proof.
  intros Hm Ht.
  assert (Hg : fst (prelude cfg w) = true).
  { unfold prelude, dns_queries, select_auth. rewrite Hm, Ht.
    destruct (w_resolver w); destruct (dns_bogus_or_indeterminate w =? 0);
      reflexivity. }
  rewrite (main_aborted fuel cfg w Hg).
  eexists. split; [reflexivity |]. cbn [trace count_success count_fail].
  split; [| split; reflexivity].
  apply existsb_contacts_app;
    [apply prelude_trace | apply cleanup_events_no_contact].
Qed.

Lemma dane_only_without_tlsa_witness :
  let cfg := sample_config MODE_DANE in
  let w := secure_world [(sample_address, oracle_ok)] [] in
  auth_mode cfg = MODE_DANE /\ w_tlsa w = [] /\
  exists st,
    main 0 cfg w = Some (2, st) /\
    existsb contacts_address (trace st) = false.
Proof.
  intros cfg w.
  split; [reflexivity |]. split; [reflexivity |].
  destruct (dane_only_without_tlsa 0 cfg w eq_refl eq_refl)
    as (st & Hm & Hc & _).
  exists st. split; assumption.
Defined.

(** ** The counters in one iteration *)

Lemma tlsa_add_usable_failures_le o rps i :
  (tlsa_add_usable o rps i + tlsa_add_failures o rps i <= List.length rps)%nat.
Proof.
  revert i. induction rps as [|rp next IH]; intros i; simpl; [lia |].
  specialize (IH (S i)).
  destruct (0 <? o_SSL_dane_tlsa_add o i) eqn:H1;
    destruct (o_SSL_dane_tlsa_add o i <? 0) eqn:H2; lia.
Qed.

Lemma tlsa_add_loop_counters o rps i ssl st :
  let st' := snd (tlsa_add_loop o rps i ssl st) in
  count_success st' = count_success st /\
  count_tlsa_usable st' =
    Nat.iter (tlsa_add_usable o rps i) incr_int (count_tlsa_usable st) /\
  count_fail st' =
    Nat.iter (tlsa_add_failures o rps i) incr_int (count_fail st).
Proof.
  revert i ssl st.
  induction rps as [|rp next IH]; intros i ssl st; simpl; [auto |].
  destruct (o_SSL_dane_tlsa_add o i <? 0) eqn:Hneg.
  - assert (Hpos : (0 <? o_SSL_dane_tlsa_add o i) = false)
      by (apply Z.ltb_lt in Hneg; apply Z.ltb_ge; lia).
    rewrite Hpos.
    destruct (IH (S i) ssl
      (free_close_fail (emit (Ev_stdout "SSL_dane_tlsa_add() failed.")
         (emit (Ev_SSL_dane_tlsa_add rp (o_SSL_dane_tlsa_add o i)) st))))
      as (H1 & H2 & H3).
    rewrite H1, H2, H3. repeat split.
    change (1 + ?n)%nat with (S n). now rewrite Nat.iter_succ_r.
  - destruct (o_SSL_dane_tlsa_add o i =? 0) eqn:Hz.
    + assert (Hpos : (0 <? o_SSL_dane_tlsa_add o i) = false)
        by (apply Z.eqb_eq in Hz; apply Z.ltb_ge; lia).
      rewrite Hpos.
      destruct (IH (S i) ssl
        (emit (Ev_unusable_tlsa rp)
           (emit (Ev_SSL_dane_tlsa_add rp (o_SSL_dane_tlsa_add o i)) st)))
        as (H1 & H2 & H3).
      rewrite H1, H2, H3. repeat split.
    + assert (Hpos : (0 <? o_SSL_dane_tlsa_add o i) = true)
        by (apply Z.ltb_ge in Hneg; apply Z.eqb_neq in Hz; apply Z.ltb_lt; lia).
      rewrite Hpos.
      destruct (IH (S i) (add_tlsa rp ssl)
        (incr_tlsa_usable
           (emit (Ev_SSL_dane_tlsa_add rp (o_SSL_dane_tlsa_add o i)) st)))
        as (H1 & H2 & H3).
      rewrite H1, H2, H3. repeat split.
      change (1 + ?n)%nat with (S n). now rewrite Nat.iter_succ_r.
Qed.

Lemma SSL_shutdown_loop_counters fuel rc i st st' :
  SSL_shutdown_loop fuel rc i st = Some st' ->
  count_success st' = count_success st /\
  count_fail st' = count_fail st /\
  count_tlsa_usable st' = count_tlsa_usable st.
Proof.
  revert i st.
  induction fuel as [|fuel IH]; intros i st H; simpl in H; [discriminate |].
  destruct (rc i =? 0).
  - apply IH in H. exact H.
  - injection H as <-. auto.
Qed.

(** From the usable-records test on, every path moves exactly one of
    [count_success] and [count_fail], once. *)
Lemma handshake_counters fuel cfg o ssl st st' :
  handshake fuel cfg o ssl st = Some st' ->
  count_tlsa_usable st' = count_tlsa_usable st /\
  ((count_success st' = count_success st /\
    count_fail st' = incr_int (count_fail st)) \/
   (count_success st' = incr_int (count_success st) /\
    count_fail st' = count_fail st)).
Proof.
  assert (Ht : forall st1,
    tls_connect fuel o ssl st1 = Some st' ->
    count_tlsa_usable st' = count_tlsa_usable st1 /\
    ((count_success st' = count_success st1 /\
      count_fail st' = incr_int (count_fail st1)) \/
     (count_success st' = incr_int (count_success st1) /\
      count_fail st' = count_fail st1))).
  { intros st1. unfold tls_connect, classify, free_close_fail.
    destruct (o_SSL_connect o <=? 0).
    { intros H; injection H as <-. cbn. auto. }
    destruct (SSL_shutdown_loop _ _ _ _) as [st2|] eqn:Hsh; [| discriminate].
    intros H; injection H as <-.
    apply SSL_shutdown_loop_counters in Hsh. destruct Hsh as (H1 & H2 & H3).
    cbn. rewrite H1, H2, H3.
    destruct (o_SSL_get_verify_result o =? X509_V_OK); cbn; auto. }
  unfold handshake, free_close_fail.
  destruct (is_MODE_DANE (auth_mode cfg) && (count_tlsa_usable st =? 0)).
  { intros H; injection H as <-. cbn. auto. }
  destruct (starttls cfg); [apply Ht | | |];
    (destruct (negb (o_do_starttls o));
     [ intros H; injection H as <-; cbn; auto | intros H; apply Ht in H; exact H ]).
Qed.

(** The counters after one iteration: [count_tlsa_usable] has been
    incremented [k] times, once per accepted record; [count_fail] has been
    incremented [f] times inside the TLSA loop, once per failed addition
    (line 434); and besides, exactly one of [count_success] and
    [count_fail] has been incremented once. *)
Lemma connect_address_counters fuel cfg a o st st' :
  connect_address fuel cfg a o st = Some st' ->
  exists k f : nat,
    (k <= tlsa_add_usable o (tlsa_rdata_list st) 0)%nat /\
    (f <= tlsa_add_failures o (tlsa_rdata_list st) 0)%nat /\
    (attempt_dane st = false -> k = 0%nat /\ f = 0%nat) /\
    count_tlsa_usable st' = Nat.iter k incr_int (count_tlsa_usable st) /\
    ((count_success st' = count_success st /\
      count_fail st' = Nat.iter (S f) incr_int (count_fail st)) \/
     (count_success st' = incr_int (count_success st) /\
      count_fail st' = Nat.iter f incr_int (count_fail st))).
Proof.
  assert (Hearly : forall st1,
    count_success st1 = count_success st ->
    count_tlsa_usable st1 = count_tlsa_usable st ->
    count_fail st1 = incr_int (count_fail st) ->
    Some st1 = Some st' ->
    exists k f : nat,
      (k <= tlsa_add_usable o (tlsa_rdata_list st) 0)%nat /\
      (f <= tlsa_add_failures o (tlsa_rdata_list st) 0)%nat /\
      (attempt_dane st = false -> k = 0%nat /\ f = 0%nat) /\
      count_tlsa_usable st' = Nat.iter k incr_int (count_tlsa_usable st) /\
      ((count_success st' = count_success st /\
        count_fail st' = Nat.iter (S f) incr_int (count_fail st)) \/
       (count_success st' = incr_int (count_success st) /\
        count_fail st' = Nat.iter f incr_int (count_fail st)))).
  { intros st1 H1 H2 H3 H; injection H as <-.
    exists 0%nat, 0%nat. repeat split; try lia. - exact H2. - left; auto. }
  unfold connect_address.
  destruct (o_socket o =? -1); [now apply Hearly |].
  destruct (o_connect o =? -1); [now apply Hearly |].
  destruct (negb (o_SSL_new o)); [now apply Hearly |].
  unfold bind_session, bind_host, set_client_side, free_close_fail.
  destruct (attempt_dane st) eqn:Hd; cbn [attempt_dane emit].
  - rewrite Hd. destruct (o_SSL_dane_enable o <=? 0); [now apply Hearly |].
    cbn [attempt_dane emit tlsa_rdata_list]. rewrite Hd.
    match goal with
    | |- context [tlsa_add_loop o ?l 0 ?s ?t] =>
        pose proof (tlsa_add_loop_counters o l 0 s t) as Hc;
        destruct (tlsa_add_loop o l 0 s t) as [ssl' st1]
    end.
    cbn [snd] in Hc. destruct Hc as (H1 & H2 & H3). cbn in H1, H2, H3.
    intros H. apply handshake_counters in H. destruct H as (Hu & Hsf).
    exists (tlsa_add_usable o (tlsa_rdata_list st) 0),
           (tlsa_add_failures o (tlsa_rdata_list st) 0).
    split; [lia |]. split; [lia |]. split; [discriminate |].
    split; [congruence |].
    rewrite Nat.iter_succ.
    destruct Hsf as [[Ha Hb] | [Ha Hb]]; [left | right]; split; congruence.
  - rewrite Hd. destruct (negb (o_SSL_set1_host o =? 1)); [now apply Hearly |].
    cbn [attempt_dane emit]. rewrite Hd.
    intros H. apply handshake_counters in H. destruct H as (Hu & Hsf).
    exists 0%nat, 0%nat.
    split; [lia |]. split; [lia |]. split; [auto |]. split; assumption.
Qed.

(** ** Who reads the counters *)

Lemma sbt_emit e st1 st2 :
  same_but_tallies st1 st2 -> same_but_tallies (emit e st1) (emit e st2).
Proof. intros (?&?&?&?&Ht). repeat split; cbn; congruence. Qed.

Lemma sbt_incr_fail st1 st2 :
  same_but_tallies st1 st2 -> same_but_tallies (incr_fail st1) (incr_fail st2).
Proof. intros (?&?&?&?&Ht). repeat split; cbn; congruence. Qed.

Lemma sbt_incr_success st1 st2 :
  same_but_tallies st1 st2 ->
  same_but_tallies (incr_success st1) (incr_success st2).
Proof. intros (?&?&?&?&Ht). repeat split; cbn; congruence. Qed.

Lemma sbt_incr_tlsa_usable st1 st2 :
  same_but_tallies st1 st2 ->
  same_but_tallies (incr_tlsa_usable st1) (incr_tlsa_usable st2).
Proof. intros (?&?&?&?&Ht). repeat split; cbn; congruence. Qed.

#[local] Hint Resolve sbt_emit sbt_incr_fail sbt_incr_success
  sbt_incr_tlsa_usable : danetls.

Lemma sbt_free_close_fail st1 st2 :
  same_but_tallies st1 st2 ->
  same_but_tallies (free_close_fail st1) (free_close_fail st2).
Proof. unfold free_close_fail. auto with danetls. Qed.

#[local] Hint Resolve sbt_free_close_fail : danetls.






(** ** The usable-records counter, exactly *)

Lemma tlsa_add_loop_accepted o rps i ssl st :
  calls is_tlsa_add_accepted (trace (snd (tlsa_add_loop o rps i ssl st))) =
    (calls is_tlsa_add_accepted (trace st) + tlsa_add_usable o rps i)%nat.
Proof.
  revert i ssl st.
  induction rps as [|rp next IH]; intros i ssl st; simpl; [lia |].
  destruct (o_SSL_dane_tlsa_add o i <? 0) eqn:Hneg;
    [| destruct (o_SSL_dane_tlsa_add o i =? 0) eqn:Hz];
    rewrite IH; unfold free_close_fail;
    rewrite ?trace_incr_fail, ?trace_incr_tlsa_usable, ?calls_emit;
    cbn [is_tlsa_add_accepted];
    destruct (0 <? o_SSL_dane_tlsa_add o i) eqn:Hpos; lia.
Qed.

Lemma count_tlsa_usable_emit e st :
  count_tlsa_usable (emit e st) = count_tlsa_usable st.
Proof. reflexivity. Qed.

Lemma count_tlsa_usable_incr_fail st :
  count_tlsa_usable (incr_fail st) = count_tlsa_usable st.
Proof. reflexivity. Qed.

Lemma count_tlsa_usable_incr_success st :
  count_tlsa_usable (incr_success st) = count_tlsa_usable st.
Proof. reflexivity. Qed.

Ltac usable_norm :=
  unfold free_close_fail;
  repeat (rewrite count_tlsa_usable_emit || rewrite count_tlsa_usable_incr_fail ||
          rewrite count_tlsa_usable_incr_success ||
          rewrite trace_incr_fail || rewrite trace_incr_success ||
          rewrite calls_emit).

Ltac usable_norm_in H :=
  cbv zeta in H; cbn [fst snd] in H; unfold free_close_fail in H;
  repeat (rewrite count_tlsa_usable_emit in H ||
          rewrite count_tlsa_usable_incr_fail in H ||
          rewrite count_tlsa_usable_incr_success in H ||
          rewrite trace_incr_fail in H || rewrite trace_incr_success in H ||
          rewrite calls_emit in H).

Lemma count_success_emit e st : count_success (emit e st) = count_success st.
Proof. reflexivity. Qed.

Lemma count_success_incr_fail st :
  count_success (incr_fail st) = count_success st.
Proof. reflexivity. Qed.

Lemma count_success_incr_success st :
  count_success (incr_success st) = incr_int (count_success st).
Proof. reflexivity. Qed.

Ltac counters_norm :=
  unfold free_close_fail;
  repeat (rewrite count_success_emit || rewrite count_success_incr_fail ||
          rewrite count_success_incr_success || rewrite count_tlsa_usable_emit).

Ltac counters_norm_in H :=
  cbn [fst snd] in H; unfold free_close_fail in H;
  repeat (rewrite count_success_emit in H ||
          rewrite count_success_incr_fail in H ||
          rewrite count_success_incr_success in H ||
          rewrite count_tlsa_usable_emit in H).

Lemma records_accepted_le o st :
  (records_accepted o st <= List.length (tlsa_rdata_list st))%nat.
Proof.
  unfold records_accepted.
  pose proof (tlsa_add_usable_failures_le o (tlsa_rdata_list st) 0).
  destruct (session_is_bound o st && attempt_dane st); lia.
Qed.

(** One iteration and the usable-records counter: the counter goes up by
    the number of records accepted for this address, which is the number
    of accepting [SSL_dane_tlsa_add] calls the iteration makes; and the
    test of line 446 aborts the attempt exactly when the iteration gets
    to it, the mode is DANE-only and the counter is 0 then. *)
Lemma connect_address_usable_exact fuel cfg a o st st' :
  connect_address fuel cfg a o st = Some st' ->
  count_tlsa_usable st' =
    Nat.iter (records_accepted o st) incr_int (count_tlsa_usable st) /\
  calls is_tlsa_add_accepted (trace st') =
    (calls is_tlsa_add_accepted (trace st) + records_accepted o st)%nat /\
  usable_aborts (trace st') =
    Nat.add (usable_aborts (trace st))
      (if session_is_bound o st && is_MODE_DANE (auth_mode cfg) &&
          (count_tlsa_usable st' =? 0)
       then 1%nat else 0%nat).
Proof.
  unfold usable_aborts, records_accepted, session_is_bound.
  iteration_paths
    ltac:(fun o l s t =>
      let H1 := fresh "Htlsa" in
      let H2 := fresh "Htlsa" in
      let H3 := fresh "Htlsa" in
      pose proof (tlsa_add_loop_counters o l 0 s t) as H1;
      pose proof (tlsa_add_loop_accepted o l 0 s t) as H2;
      pose proof (tlsa_add_loop_calls_any is_no_usable_abort o l 0 s t
                    (fun _ _ => eq_refl) (fun _ => eq_refl)) as H3)
    ltac:(fun Hs =>
      let H1 := fresh "Hshutdown" in
      let H2 := fresh "Hshutdown" in
      let H3 := fresh "Hshutdown" in
      pose proof (SSL_shutdown_loop_counters _ _ _ _ _ Hs) as H1;
      pose proof (SSL_shutdown_loop_calls_any is_tlsa_add_accepted _ _ _ _ _
                    (fun _ => eq_refl) Hs) as H2;
      pose proof (SSL_shutdown_loop_calls_any is_no_usable_abort _ _ _ _ _
                    (fun _ => eq_refl) Hs) as H3;
      clear Hs);
    repeat match goal with
           | H : let _ := _ in _ |- _ => cbv zeta in H
           | H : _ /\ _ |- _ => destruct H
           end;
    repeat match goal with
           | H : count_success _ = _ |- _ => clear H
           | H : count_fail _ = _ |- _ => clear H
           | H : count_tlsa_usable _ = _ |- _ => progress usable_norm_in H
           | H : calls _ (trace _) = _ |- _ => progress usable_norm_in H
           end.
  all: try match goal with
           | Hu : (_ && (count_tlsa_usable _ =? 0)) = _ |- _ =>
               usable_norm_in Hu
           end.
  all: usable_norm.
  all: rewrite ?Hsocket, ?Hconnect, ?Hnew, ?Hdane, ?Hbind; cbn [negb andb];
    try change (Nat.iter 0 incr_int (count_tlsa_usable st))
          with (count_tlsa_usable st).
  all: simpl (is_tlsa_add_accepted _); simpl (is_no_usable_abort _).
  all: repeat match goal with
              | H : calls _ (trace _) = _ |- _ =>
                  simpl (is_tlsa_add_accepted _) in H;
                  simpl (is_no_usable_abort _) in H;
                  try change (calls is_no_usable_abort
                                [Ev_stdout "SSL_dane_tlsa_add() failed.";
                                 Ev_SSL_free; Ev_close])
                        with 0%nat in H;
                  cbv iota in H; revert H
              end; intros.
  all: repeat match goal with
              | H : count_tlsa_usable ?x = count_tlsa_usable ?y |- _ =>
                  rewrite H in *; clear H
              end.
  all: rewrite ?Husable; cbv iota.
  all: try (split; [first [reflexivity | assumption] | split; lia]).
Qed.

(** ** The counters, per iteration *)


(** [count_tlsa_usable] is read inside the loop: in DANE-only mode two
    states that differ only in it take different branches at line 446. *)
Example usable_count_is_read_in_the_loop :
  let cfg := sample_config MODE_DANE in
  let st0 :=
    snd (prelude cfg (secure_world [(sample_address, oracle_unusable)]
                                   [sample_record])) in
  let st1 := incr_tlsa_usable st0 in
  (exists st', connect_address 1 cfg sample_address oracle_unusable st0 = Some st' /\
               In (Ev_stderr "No usable TLSA records present.") (trace st') /\
               count_fail st' = 1 /\ count_success st' = 0) /\
  (exists st', connect_address 1 cfg sample_address oracle_unusable st1 = Some st' /\
               ~ In (Ev_stderr "No usable TLSA records present.") (trace st') /\
               count_fail st' = 0 /\ count_success st' = 1).
Proof.
  split; eexists; (split; [vm_compute; reflexivity |]);
    (split; [| split; reflexivity]).
  - cbn. intuition.
  - cbn. intuition discriminate.
Qed.



(** ** Failure of a binding step *)

(** The two host-binding steps behave as a per-address error should:
    when [SSL_dane_enable] (DANE) or [SSL_set1_host] (PKIX) fails, the
    session is freed, the socket closed, [count_fail] incremented once,
    and the loop goes on with the next address. *)
Lemma bind_host_failure_contained fuel cfg a o next st :
  o_socket o <> -1 -> o_connect o <> -1 -> o_SSL_new o = true ->
  (if attempt_dane st
   then o_SSL_dane_enable o <= 0
   else o_SSL_set1_host o <> 1) ->
  exists st',
    connect_address fuel cfg a o st = Some st' /\
    count_fail st' = incr_int (count_fail st) /\
    count_success st' = count_success st /\
    count_tlsa_usable st' = count_tlsa_usable st /\
    trace st' =
      trace st ++
      [Ev_socket a (o_socket o); Ev_connect a (o_connect o); Ev_SSL_new true;
       (if attempt_dane st
        then Ev_SSL_dane_enable (hostname cfg) (o_SSL_dane_enable o)
        else Ev_SSL_set1_host (hostname cfg) (o_SSL_set1_host o));
       Ev_stderr (if attempt_dane st then "SSL_dane_enable() failed."
                  else "SSL_set1_host() failed.");
       Ev_SSL_free; Ev_close] /\
    address_loop fuel cfg ((a, o) :: next) st = address_loop fuel cfg next st'.
Proof.
  intros Hs Hc Hn Hb.
  apply Z.eqb_neq in Hs, Hc.
  assert (Hrun : exists st',
    connect_address fuel cfg a o st = Some st' /\
    count_fail st' = incr_int (count_fail st) /\
    count_success st' = count_success st /\
    count_tlsa_usable st' = count_tlsa_usable st /\
    trace st' =
      trace st ++
      [Ev_socket a (o_socket o); Ev_connect a (o_connect o); Ev_SSL_new true;
       (if attempt_dane st
        then Ev_SSL_dane_enable (hostname cfg) (o_SSL_dane_enable o)
        else Ev_SSL_set1_host (hostname cfg) (o_SSL_set1_host o));
       Ev_stderr (if attempt_dane st then "SSL_dane_enable() failed."
                  else "SSL_set1_host() failed.");
       Ev_SSL_free; Ev_close]).
  { unfold connect_address, bind_session, bind_host, free_close_fail.
    rewrite Hs, Hc, Hn. cbn [negb attempt_dane emit].
    destruct (attempt_dane st).
    - apply Z.leb_le in Hb. rewrite Hb.
      eexists. split; [reflexivity |]. cbn.
      repeat split. now rewrite <- !app_assoc.
    - apply Z.eqb_neq in Hb. rewrite Hb. cbn [negb].
      eexists. split; [reflexivity |]. cbn.
      repeat split. now rewrite <- !app_assoc. }
  destruct Hrun as (st' & Hrun & Hrest).
  exists st'. repeat split; try apply Hrest; trivial.
  simpl. now rewrite Hrun.
Qed.

(** C3 fails for the third binding step.  One address, one TLSA record,
    [SSL_dane_tlsa_add] returns -1: the [continue] of line 435 leaves the
    TLSA loop only, so the attempt is not over.  In DANE-only mode the
    usable-records test then fails the same address again
    ([count_fail = 2], the session freed and the socket closed twice); in
    fallback mode the freed session goes through [SSL_connect], and with
    a certificate that verifies the one address counts as a failure and
    as a success, and the run returns 1. *)
Theorem tlsa_add_failure_not_contained :
  let a := sample_address in
  let o := oracle_tlsa_add_fails in
  let w := secure_world [(a, o)] [sample_record] in
  let s := mk_SSL (Some "example.com"%string) None (Some "example.com"%string)
                  X509_CHECK_FLAG_NO_PARTIAL_WILDCARDS [] true true in
  (let cfg := sample_config MODE_DANE in
   let st0 := snd (prelude cfg w) in
   exists st',
     connect_address 1 cfg a o st0 = Some st' /\
     count_fail st0 = 0 /\ count_fail st' = 2 /\ count_success st' = 0 /\
     trace st' =
       trace st0 ++
       [Ev_socket a 3; Ev_connect a 0; Ev_SSL_new true;
        Ev_SSL_dane_enable "example.com" 1;
        Ev_SSL_set_hostflags X509_CHECK_FLAG_NO_PARTIAL_WILDCARDS;
        Ev_SSL_dane_tlsa_add sample_record (-1);
        Ev_stdout "SSL_dane_tlsa_add() failed."; Ev_SSL_free; Ev_close;
        Ev_stderr "No usable TLSA records present."; Ev_SSL_free; Ev_close] /\
     exists st_end, main 1 cfg w = Some (2, st_end) /\ count_fail st_end = 2) /\
  (let cfg := sample_config MODE_BOTH in
   let st0 := snd (prelude cfg w) in
   exists st',
     connect_address 1 cfg a o st0 = Some st' /\
     count_fail st0 = 0 /\ count_fail st' = 1 /\ count_success st' = 1 /\
     trace st' =
       trace st0 ++
       [Ev_socket a 3; Ev_connect a 0; Ev_SSL_new true;
        Ev_SSL_dane_enable "example.com" 1;
        Ev_SSL_set_hostflags X509_CHECK_FLAG_NO_PARTIAL_WILDCARDS;
        Ev_SSL_dane_tlsa_add sample_record (-1);
        Ev_stdout "SSL_dane_tlsa_add() failed."; Ev_SSL_free; Ev_close;
        Ev_SSL_connect s 1; Ev_SSL_get_verify_result 0; Ev_SSL_shutdown 1;
        Ev_SSL_free; Ev_close] /\
     exists st_end, main 1 cfg w = Some (1, st_end) /\
                    count_fail st_end = 1 /\ count_success st_end = 1).
Proof.
  split; cbv zeta; eexists;
    (split; [vm_compute; reflexivity |]);
    repeat (split; [reflexivity |]);
    eexists; (split; [vm_compute; reflexivity |]); repeat split.
Qed.

(** ** Repeated calls *)







(** ** The shutdown loop *)








(** ** Everything but [SSL_shutdown] is bounded *)










(** ** PKIX sessions *)

(** Every event in the trace of a finished run comes from the prelude,
    from the loop, or from the cleanup. *)
Lemma main_event_cases fuel cfg w code st e :
  main fuel cfg w = Some (code, st) ->
  In e (trace st) ->
  In e (trace (snd (prelude cfg w))) \/
  loop_event cfg (attempt_dane (snd (prelude cfg w))) e \/
  In e (cleanup_events (ctx (snd (prelude cfg w)))).
Proof.
  intros Hm Hin.
  destruct (main_shape _ _ _ _ _ Hm) as (_ & _ & _ & new & Ht & Hf & _).
  rewrite Ht in Hin.
  apply in_app_or in Hin as [Hin | Hin]; [now left |].
  apply in_app_or in Hin as [Hin | Hin]; [| now right; right].
  right; left. rewrite Forall_forall in Hf. auto.
Qed.

Lemma labels_not_nil s : labels s <> [].
Proof.
  destruct s as [|c r]; cbn [labels]; [discriminate |].
  destruct (Ascii.eqb c "."%char); [discriminate |].
  destruct (labels r); discriminate.
Qed.

Lemma labels_without_star s :
  has_star s = false ->
  forall l, In l (labels s) -> has_star l = false.
Proof.
  unfold has_star, chars.
  induction s as [|c r IH]; cbn [labels list_ascii_of_string existsb].
  - intros _ l [<-|[]]. reflexivity.
  - intros H. apply orb_false_iff in H. destruct H as [Hc Hr].
    specialize (IH Hr).
    destruct (Ascii.eqb c "."%char).
    + intros l [<-|Hl]; [reflexivity | now apply IH].
    + destruct (labels r) as [|l0 ls] eqn:Hlab.
      * intros l [<-|[]]. cbn [list_ascii_of_string existsb]. now rewrite Hc.
      * intros l [<-|Hl].
        -- cbn [list_ascii_of_string existsb]. rewrite Hc.
           apply IH. now left.
        -- apply IH. now right.
Qed.

Lemma same_labels_eq l1 l2 : same_labels l1 l2 = true -> l1 = l2.
Proof.
  revert l2. induction l1 as [|a l1 IH]; intros [|b l2]; cbn [same_labels];
    try discriminate; [reflexivity |].
  intros H. apply andb_true_iff in H. destruct H as [Hab Hl].
  apply String.eqb_eq in Hab. subst b. f_equal. now apply IH.
Qed.

(** Under the no-partial-wildcards flag a name with a partial wildcard
    label matches no host name (a host name holds no [*]). *)
Lemma partial_wildcard_never_matches flags name host :
  Z.land flags X509_CHECK_FLAG_NO_PARTIAL_WILDCARDS <> 0 ->
  has_partial_wildcard name = true ->
  has_star host = false ->
  name_matches flags name host = false.
Proof.
  intros Hflag Hpart Hhost.
  unfold name_matches, has_partial_wildcard in *.
  pose proof (labels_without_star host Hhost) as Hfree.
  destruct (labels name) as [|pl prest]; [discriminate Hpart |].
  destruct (labels host) as [|hl hrest]; [reflexivity |].
  cbn [existsb] in Hpart. apply orb_true_iff in Hpart.
  destruct Hpart as [Hpl | Hrest].
  - unfold partial_wildcard_label in Hpl. apply andb_true_iff in Hpl.
    destruct Hpl as [Hstar Hne]. unfold label_matches. rewrite Hstar.
    apply Z.eqb_neq in Hflag. rewrite Hflag.
    apply negb_true_iff in Hne. rewrite Hne.
    now rewrite andb_false_r.
  - destruct (same_labels prest hrest) eqn:Hsame; [| apply andb_false_r].
    apply same_labels_eq in Hsame. subst hrest.
    apply existsb_exists in Hrest. destruct Hrest as (l & Hin & Hl).
    unfold partial_wildcard_label in Hl. apply andb_true_iff in Hl.
    destruct Hl as [Hstar _].
    rewrite (Hfree l (or_intror Hin)) in Hstar. discriminate Hstar.
Qed.

Example partial_wildcard_matching :
  name_matches 0 "f*.example.com" "foo.example.com" = true /\
  name_matches X509_CHECK_FLAG_NO_PARTIAL_WILDCARDS
               "f*.example.com" "foo.example.com" = false /\
  name_matches X509_CHECK_FLAG_NO_PARTIAL_WILDCARDS
               "*.example.com" "foo.example.com" = true /\
  name_matches X509_CHECK_FLAG_NO_PARTIAL_WILDCARDS
               "foo.example.com" "foo.example.com" = true /\
  name_matches X509_CHECK_FLAG_NO_PARTIAL_WILDCARDS
               "*.example.com" "foo.example.org" = false /\
  name_matches 0 "f*.example.com" "bar.example.com" = false /\
  has_partial_wildcard "f*.example.com" = true /\
  has_partial_wildcard "*.example.com" = false.
Proof. repeat split; reflexivity. Qed.

Lemma partial_names_not_accepted (s : SSL) (h : string) (names : list string) :
  ssl_verify_host s = Some h ->
  ssl_hostflags s = X509_CHECK_FLAG_NO_PARTIAL_WILDCARDS ->
  has_star h = false ->
  forallb has_partial_wildcard names = true ->
  existsb (session_accepts_name s) names = false.
Proof.
  intros Hv Hf Hh Hn.
  induction names as [|name names IH]; [reflexivity |].
  cbn [forallb existsb] in *. apply andb_true_iff in Hn. destruct Hn as [Hp Hn].
  rewrite (IH Hn), orb_false_r.
  unfold session_accepts_name. rewrite Hv, Hf.
  apply partial_wildcard_never_matches; [discriminate | exact Hp | exact Hh].
Qed.

(** When the verification result of the library honours the name check
    it was asked for, an address whose certificate carries only names
    with a partial wildcard label is not counted as a success in a run
    without DANE. *)
Lemma partial_wildcards_never_verify fuel cfg a o st st' names :
  attempt_dane st = false ->
  has_star (hostname cfg) = false ->
  forallb has_partial_wildcard names = true ->
  connect_address fuel cfg a o st = Some st' ->
  (o_SSL_get_verify_result o = X509_V_OK ->
   forall s, In s (collect connect_session (trace st')) ->
             existsb (session_accepts_name s) names = true) ->
  count_success st' = count_success st.
Proof.
  intros Hnodane Hhost Hnames.
  iteration_paths
    ltac:(fun o l s t => idtac)
    ltac:(fun Hs =>
      let Hc := fresh "Hcount" in
      pose proof (SSL_shutdown_loop_counters _ _ _ _ _ Hs) as Hc;
      destruct Hc as (Hc & _ & _); counters_norm_in Hc;
      apply (SSL_shutdown_loop_collect connect_session) in Hs;
      [| reflexivity]);
    try congruence; intros Hlib.
  all: try solve [counters_norm; reflexivity].
  all: try solve [counters_norm_in Hcount; counters_norm; rewrite Hcount;
                  counters_norm; reflexivity].
  all: exfalso; apply Z.eqb_eq in Hverify; specialize (Hlib Hverify);
    trace_norm_in Hshut; cbn [connect_session app] in Hshut;
    rewrite ?app_nil_r in Hshut;
    trace_norm_in Hlib; cbn [connect_session app] in Hlib;
    rewrite ?app_nil_r, Hshut in Hlib;
    match type of Hlib with
    | forall s, In s (?l ++ [?x]) -> _ =>
        specialize (Hlib x (in_or_app l [x] x (or_intror (or_introl eq_refl))));
        rewrite (partial_names_not_accepted x (hostname cfg) names
                   eq_refl eq_refl Hhost Hnames) in Hlib
    end;
    discriminate Hlib.
Qed.

(** C8.  In a run that does not attempt DANE, every session on which the
    handshake is started has been given the host name for the standard
    name check ([SSL_set1_host]) and the host flags
    [X509_CHECK_FLAG_NO_PARTIAL_WILDCARDS], has DANE off and holds no TLSA
    record; and no other host flags are ever set.  So the name check of
    such a session accepts no certificate name with a partial wildcard
    label, whatever the requested host name (which holds no [*]); and
    when the verification result of the library honours that name check,
    an address whose certificate carries only such names is not counted
    as a success. *)
Theorem pkix_sessions_forbid_partial_wildcards
    (fuel : nat) (cfg : config) (w : world) (code : Z) (st : state) :
  main fuel cfg w = Some (code, st) ->
  attempt_dane st = false ->
  (forall s rc,
     In (Ev_SSL_connect s rc) (trace st) ->
     ssl_hostflags s = X509_CHECK_FLAG_NO_PARTIAL_WILDCARDS /\
     ssl_verify_host s = Some (hostname cfg) /\
     ssl_sni s = Some (hostname cfg) /\
     ssl_dane_host s = None /\
     ssl_tlsa s = [] /\
     (has_star (hostname cfg) = false ->
      forall name,
        has_partial_wildcard name = true ->
        session_accepts_name s name = false)) /\
  (forall flags,
     In (Ev_SSL_set_hostflags flags) (trace st) ->
     flags = X509_CHECK_FLAG_NO_PARTIAL_WILDCARDS) /\
  (forall fuel' a o st0 st1 names,
     attempt_dane st0 = false ->
     has_star (hostname cfg) = false ->
     forallb has_partial_wildcard names = true ->
     connect_address fuel' cfg a o st0 = Some st1 ->
     (o_SSL_get_verify_result o = X509_V_OK ->
      forall s, In s (collect connect_session (trace st1)) ->
                existsb (session_accepts_name s) names = true) ->
     count_success st1 = count_success st0).
Proof.
  intros Hm Hd.
  assert (Hd0 : attempt_dane (snd (prelude cfg w)) = false).
  { destruct (main_shape _ _ _ _ _ Hm) as (_ & Ha & _). congruence. }
  split; [| split].
  - intros s rc Hin.
    destruct (main_loop_event _ _ _ _ _ _ Hm Hin eq_refl) as [He _].
    rewrite Hd0 in He. inversion He as [| | | | | | | | | | | | | | |s' rc' Hs| |].
    destruct Hs as (Hf & Hsni & _ & _ & Hn & Hv & Ht).
    repeat (split; [assumption |]).
    intros Hhost name Hname. unfold session_accepts_name. rewrite Hv, Hf.
    apply partial_wildcard_never_matches; [discriminate | exact Hname | exact Hhost].
  - intros flags Hin.
    destruct (main_loop_event _ _ _ _ _ _ Hm Hin eq_refl) as [He _].
    inversion He. reflexivity.
  - intros fuel' a o st0 st1 names.
    apply partial_wildcards_never_verify.
Qed.

Lemma pkix_sessions_forbid_partial_wildcards_witness :
  let cfg := mk_config MODE_PKIX None None STARTTLS_NONE "foo.example.com" 443 in
  exists code st,
    main 2 cfg world_two_addresses = Some (code, st) /\
    attempt_dane st = false /\
    (exists s rc, In (Ev_SSL_connect s rc) (trace st)) /\
    forall s rc,
      In (Ev_SSL_connect s rc) (trace st) ->
      ssl_hostflags s = X509_CHECK_FLAG_NO_PARTIAL_WILDCARDS /\
      ssl_verify_host s = Some "foo.example.com"%string /\
      session_accepts_name s "f*.example.com" = false.
Proof.
  intros cfg.
  destruct (main 2 cfg world_two_addresses) as [[code st]|] eqn:E;
    [| vm_compute in E; discriminate E].
  exists code, st. split; [reflexivity |].
  assert (Hd : attempt_dane st = false)
    by (vm_compute in E; injection E as _ <-; reflexivity).
  split; [exact Hd |].
  split.
  - vm_compute in E. injection E as _ <-.
    do 2 eexists. cbn. do 11 right. left. reflexivity.
  - intros s rc Hin.
    destruct (pkix_sessions_forbid_partial_wildcards 2 cfg _ code st E Hd)
      as [Hs _].
    destruct (Hs s rc Hin) as (Hf & Hv & _ & _ & _ & Hacc).
    split; [assumption |]. split; [assumption |].
    apply Hacc; reflexivity.
Defined.

(** ** PKIX-only mode *)

(** C10.  In PKIX-only mode [get_tlsa] is never called, the TLSA list is
    empty and [attempt_dane] is false when the loop starts and when the
    run ends, no session has DANE enabled or a TLSA record added, and
    every session that starts a handshake is bound for the PKIX name
    check only. *)
Theorem pkix_only_never_uses_tlsa (cfg : config) (w : world) :
  auth_mode cfg = MODE_PKIX ->
  let st0 := snd (prelude cfg w) in
  (~ In Ev_get_tlsa (trace st0) /\
   tlsa_rdata_list st0 = [] /\
   attempt_dane st0 = false) /\
  (forall fuel code st,
     main fuel cfg w = Some (code, st) ->
     ~ In Ev_get_tlsa (trace st) /\
     tlsa_rdata_list st = [] /\
     attempt_dane st = false /\
     (forall h rc, ~ In (Ev_SSL_dane_enable h rc) (trace st)) /\
     (forall rp rc, ~ In (Ev_SSL_dane_tlsa_add rp rc) (trace st)) /\
     (forall s rc, In (Ev_SSL_connect s rc) (trace st) ->
                   session_bound cfg false s)).
Proof.
  intros Hmode st0.
  assert (H0 : ~ In Ev_get_tlsa (trace st0) /\
               tlsa_rdata_list st0 = [] /\ attempt_dane st0 = false).
  { subst st0. prelude_cases cfg w; try congruence;
      (split; [| split; reflexivity]); intros Hin;
      repeat (destruct Hin as [Hin | Hin]; [discriminate Hin |]);
      exact Hin. }
  split; [exact H0 |].
  destruct H0 as (Hg & Hl & Hd).
  intros fuel code st Hm.
  destruct (main_shape _ _ _ _ _ Hm) as (_ & Ha & Ht & _).
  fold st0 in Ha, Ht.
  split; [| split; [congruence | split; [congruence | split; [| split]]]].
  - intros Hin.
    destruct (main_event_cases _ _ _ _ _ _ Hm Hin) as [H | [H | H]].
    + exact (Hg H).
    + inversion H.
    + apply In_cleanup_events in H as Hc.
      unfold cleanup_events in H.
      destruct (ctx (snd (prelude cfg w))); cbn in H;
        intuition discriminate.
  - intros h rc Hin.
    destruct (main_loop_event _ _ _ _ _ _ Hm Hin eq_refl) as [He _].
    fold st0 in He. rewrite Hd in He. inversion He. discriminate.
  - intros rp rc Hin.
    destruct (main_loop_event _ _ _ _ _ _ Hm Hin eq_refl) as [He _].
    fold st0 in He. rewrite Hd in He. inversion He. discriminate.
  - intros s rc Hin.
    destruct (main_loop_event _ _ _ _ _ _ Hm Hin eq_refl) as [He _].
    fold st0 in He. rewrite Hd in He. inversion He. assumption.
Qed.

Lemma pkix_only_never_uses_tlsa_witness :
  let cfg := sample_config MODE_PKIX in
  let w := world_two_addresses in
  auth_mode cfg = MODE_PKIX /\
  w_tlsa w <> [] /\
  tlsa_rdata_list (snd (prelude cfg w)) = [] /\
  exists code st,
    main 2 cfg w = Some (code, st) /\
    ~ In Ev_get_tlsa (trace st) /\
    attempt_dane st = false.
Proof.
  intros cfg w.
  destruct (pkix_only_never_uses_tlsa cfg w eq_refl) as [(_ & Hl & _) Hrun].
  split; [reflexivity |]. split; [discriminate |]. split; [exact Hl |].
  destruct (main 2 cfg w) as [[code st]|] eqn:E;
    [| vm_compute in E; discriminate E].
  exists code, st. split; [reflexivity |].
  destruct (Hrun 2%nat code st E) as (Hg & _ & Hd & _).
  split; assumption.
Defined.

(** ** The usable-records counter across addresses *)

Lemma tlsa_add_loop_usable_aborts o rps i ssl st :
  usable_aborts (trace (snd (tlsa_add_loop o rps i ssl st))) =
    usable_aborts (trace st).
Proof.
  unfold usable_aborts. revert i ssl st.
  induction rps as [|rp next IH]; intros i ssl st; simpl; [reflexivity |].
  destruct (o_SSL_dane_tlsa_add o i <? 0);
    [| destruct (o_SSL_dane_tlsa_add o i =? 0)];
    rewrite IH; unfold free_close_fail;
    cbn [trace incr_fail incr_tlsa_usable]; rewrite ?calls_emit; cbn; lia.
Qed.

Lemma SSL_shutdown_loop_usable_aborts fuel rc i st st' :
  SSL_shutdown_loop fuel rc i st = Some st' ->
  usable_aborts (trace st') = usable_aborts (trace st).
Proof.
  unfold usable_aborts. revert i st.
  induction fuel as [|fuel IH]; intros i st H; simpl in H; [discriminate |].
  destruct (rc i =? 0).
  - apply IH in H. rewrite H, calls_emit. cbn; lia.
  - injection H as <-. rewrite calls_emit. cbn; lia.
Qed.

Ltac count_aborts :=
  unfold usable_aborts, free_close_fail;
  cbn [trace incr_fail incr_success incr_tlsa_usable];
  rewrite ?calls_emit; cbn; lia.

Lemma tls_connect_usable_aborts fuel o ssl st st' :
  tls_connect fuel o ssl st = Some st' ->
  usable_aborts (trace st') = usable_aborts (trace st).
Proof.
  unfold tls_connect, classify.
  destruct (o_SSL_connect o <=? 0).
  { intros H; injection H as <-. count_aborts. }
  destruct (SSL_shutdown_loop _ _ _ _) as [st2|] eqn:Hsh; [| discriminate].
  intros H; injection H as <-.
  apply SSL_shutdown_loop_usable_aborts in Hsh. revert Hsh.
  destruct (o_SSL_get_verify_result o =? X509_V_OK); count_aborts.
Qed.

(** The test of line 446 looks at [count_tlsa_usable] as it stands, and
    the attempt is aborted by it exactly when the mode is DANE-only and
    that value is 0. *)
Lemma handshake_usable_aborts fuel cfg o ssl st st' :
  handshake fuel cfg o ssl st = Some st' ->
  usable_aborts (trace st') =
    Nat.add (usable_aborts (trace st))
      (if is_MODE_DANE (auth_mode cfg) && (count_tlsa_usable st =? 0)
       then 1%nat else 0%nat).
Proof.
  unfold handshake.
  destruct (is_MODE_DANE (auth_mode cfg) && (count_tlsa_usable st =? 0)).
  { intros H; injection H as <-. count_aborts. }
  destruct (starttls cfg);
    [ intros H; apply tls_connect_usable_aborts in H; lia | | | ];
    (destruct (negb (o_do_starttls o));
     [ intros H; injection H as <-; count_aborts
     | intros H; apply tls_connect_usable_aborts in H;
       revert H; count_aborts ]).
Qed.

Lemma connect_address_usable_aborts fuel cfg a o st st' :
  connect_address fuel cfg a o st = Some st' ->
  usable_aborts (trace st') = usable_aborts (trace st) \/
  (usable_aborts (trace st') = S (usable_aborts (trace st)) /\
   auth_mode cfg = MODE_DANE /\ count_tlsa_usable st' = 0).
Proof.
  assert (Hh : forall ssl st1,
    handshake fuel cfg o ssl st1 = Some st' ->
    usable_aborts (trace st') = usable_aborts (trace st1) \/
    (usable_aborts (trace st') = S (usable_aborts (trace st1)) /\
     auth_mode cfg = MODE_DANE /\ count_tlsa_usable st' = 0)).
  { intros ssl st1 H.
    pose proof (handshake_usable_aborts _ _ _ _ _ _ H) as Ha.
    apply handshake_counters in H. destruct H as [Hu _].
    destruct (is_MODE_DANE (auth_mode cfg)) eqn:Hm; cbn [andb] in Ha;
      [| left; lia].
    destruct (count_tlsa_usable st1 =? 0) eqn:Hz; [| left; lia].
    right. apply Z.eqb_eq in Hz.
    repeat split; [lia | | congruence].
    destruct (auth_mode cfg); (reflexivity || discriminate Hm). }
  unfold connect_address.
  destruct (o_socket o =? -1).
  { intros H; injection H as <-. left. count_aborts. }
  destruct (o_connect o =? -1).
  { intros H; injection H as <-. left. count_aborts. }
  destruct (negb (o_SSL_new o)).
  { intros H; injection H as <-. left. count_aborts. }
  unfold bind_session, bind_host, set_client_side.
  cbn [attempt_dane emit].
  destruct (attempt_dane st) eqn:Hd.
  - destruct (o_SSL_dane_enable o <=? 0).
    { intros H; injection H as <-. left. count_aborts. }
    cbn [attempt_dane emit tlsa_rdata_list]. rewrite Hd.
    match goal with
    | |- context [tlsa_add_loop o ?l 0 ?s ?t] =>
        pose proof (tlsa_add_loop_usable_aborts o l 0 s t) as Hc;
        destruct (tlsa_add_loop o l 0 s t) as [ssl' st1]
    end.
    cbn [snd] in Hc. intros H. apply Hh in H.
    revert Hc H. unfold usable_aborts. cbn [trace]. rewrite ?calls_emit. cbn.
    intros Hc [H | (H & Hm & Hz)]; [left; lia | right; repeat split; trivial; lia].
  - destruct (negb (o_SSL_set1_host o =? 1)).
    { intros H; injection H as <-. left. count_aborts. }
    cbn [attempt_dane emit]. rewrite Hd.
    intros H. apply Hh in H.
    revert H. unfold usable_aborts. cbn [trace]. rewrite ?calls_emit. cbn.
    intros [H | (H & Hm & Hz)]; [left; lia | right; repeat split; trivial; lia].
Qed.

Lemma connect_address_usable fuel cfg a o st st' :
  connect_address fuel cfg a o st = Some st' ->
  exists k : nat,
    (k <= List.length (tlsa_rdata_list st))%nat /\
    count_tlsa_usable st' = Nat.iter k incr_int (count_tlsa_usable st).
Proof.
  intros H.
  destruct (connect_address_counters _ _ _ _ _ _ H) as (k & f & Hk & _ & _ & Hu & _).
  exists k. split; [| exact Hu].
  pose proof (tlsa_add_usable_failures_le o (tlsa_rdata_list st) 0). lia.
Qed.

(** Once the counter is positive (and short of overflow) no later
    address is aborted by the usable-records test. *)
Lemma address_loop_no_usable_abort fuel cfg gaip st st' :
  address_loop fuel cfg gaip st = Some st' ->
  0 < count_tlsa_usable st ->
  count_tlsa_usable st +
    Z.of_nat (List.length gaip) * Z.of_nat (List.length (tlsa_rdata_list st))
    <= INT_MAX ->
  usable_aborts (trace st') = usable_aborts (trace st) /\
  count_tlsa_usable st <= count_tlsa_usable st'.
Proof.
  revert st.
  induction gaip as [|[a o] next IH]; intros st H Hpos Hmax; simpl in H.
  - injection H as <-. split; [reflexivity | lia].
  - destruct (connect_address fuel cfg a o st) as [st1|] eqn:H1; [| discriminate].
    destruct (connect_address_usable _ _ _ _ _ _ H1) as (k & Hk & Hu).
    assert (Hl : tlsa_rdata_list st1 = tlsa_rdata_list st)
      by apply (connect_address_steps _ _ _ _ _ _ H1).
    cbn [List.length] in Hmax. rewrite Nat2Z.inj_succ, Z.mul_succ_l in Hmax.
    assert (Hnext : 0 <= Z.of_nat (List.length next) *
                         Z.of_nat (List.length (tlsa_rdata_list st)))
      by (apply Z.mul_nonneg_nonneg; lia).
    rewrite iter_incr_int_in_range in Hu by lia.
    destruct (IH st1 H) as [Ha Hc]; [lia | rewrite Hl; lia |].
    split; [| lia].
    destruct (connect_address_usable_aborts _ _ _ _ _ _ H1)
      as [Hsame | (_ & _ & Hz)]; [congruence | lia].
Qed.

(** A DANE-only run over two addresses: the first session accepts the
    TLSA record, the second finds it unusable.  The test of line 446 sees
    the count left by the first address, so the second attempt is not
    aborted and performs its handshake with no TLSA record at all. *)
Example second_address_passes_on_first_address_count :
  let cfg := sample_config MODE_DANE in
  let w := secure_world [(sample_address, oracle_ok);
                         (sample_address6, oracle_unusable)] [sample_record] in
  let s := mk_SSL (Some "example.com"%string) None (Some "example.com"%string)
                  X509_CHECK_FLAG_NO_PARTIAL_WILDCARDS [] true true in
  exists st,
    main 2 cfg w = Some (0, st) /\
    count_tlsa_usable st = 1 /\ count_success st = 2 /\
    usable_aborts (trace st) = 0%nat /\
    In (Ev_SSL_dane_tlsa_add sample_record 0) (trace st) /\
    In (Ev_SSL_connect s 1) (trace st).
Proof.
  cbv zeta. eexists. split; [vm_compute; reflexivity |].
  repeat split; cbn; tauto.
Qed.

(** Over the whole loop the counter goes up by the number of accepting
    [SSL_dane_tlsa_add] calls. *)
Lemma address_loop_usable_exact fuel cfg gaip st st' :
  address_loop fuel cfg gaip st = Some st' ->
  exists K : nat,
    calls is_tlsa_add_accepted (trace st') =
      (calls is_tlsa_add_accepted (trace st) + K)%nat /\
    count_tlsa_usable st' = Nat.iter K incr_int (count_tlsa_usable st) /\
    (K <= List.length gaip * List.length (tlsa_rdata_list st))%nat.
Proof.
  revert st.
  induction gaip as [|[a o] next IH]; intros st H; simpl in H.
  - injection H as <-. exists 0%nat. repeat split; lia.
  - destruct (connect_address fuel cfg a o st) as [st1|] eqn:H1; [| discriminate].
    destruct (connect_address_usable_exact _ _ _ _ _ _ H1) as (Hc & Ha & _).
    pose proof (records_accepted_le o st) as Hle.
    assert (Hl : tlsa_rdata_list st1 = tlsa_rdata_list st)
      by apply (connect_address_steps _ _ _ _ _ _ H1).
    destruct (IH _ H) as (K & HA & HU & HK). rewrite Hl in HK.
    exists (K + records_accepted o st)%nat.
    split; [lia |]. split; [| cbn [List.length]; lia].
    now rewrite Nat.iter_add, <- Hc.
Qed.

Lemma prelude_no_tlsa_add cfg w :
  calls is_tlsa_add_accepted (trace (snd (prelude cfg w))) = 0%nat.
Proof. prelude_cases cfg w; reflexivity. Qed.

(** At every point of the loop the counter is the number of accepting
    [SSL_dane_tlsa_add] calls of the run so far, whatever the address
    they were made for. *)
Lemma address_loop_cumulative fuel cfg w gaip st' :
  address_loop fuel cfg gaip (snd (prelude cfg w)) = Some st' ->
  count_tlsa_usable st' =
    Nat.iter (calls is_tlsa_add_accepted (trace st')) incr_int 0.
Proof.
  intros H.
  destruct (address_loop_usable_exact _ _ _ _ _ H) as (K & HA & HU & _).
  rewrite prelude_no_tlsa_add in HA.
  destruct (prelude_counters cfg w) as (_ & _ & H0).
  now rewrite HA, HU, H0.
Qed.

(** C9.  [count_tlsa_usable] is set to 0 once (line 211) and from then
    on only incremented, never reset: an iteration increments it once
    per record accepted for its address, and at every point of the loop
    it is the number of accepting [SSL_dane_tlsa_add] calls made so far
    in the run, for whatever address (at most addresses x records).  The
    usable-records test of line 446 aborts an attempt exactly when the
    iteration gets to it, the mode is DANE-only and that cumulative
    counter is 0.  So once the counter is positive no later address is
    aborted by the test (as long as the [int] cannot overflow). *)
Theorem usable_count_accumulates :
  count_tlsa_usable init_state = 0 /\
  (forall cfg w, count_tlsa_usable (snd (prelude cfg w)) = 0) /\
  (forall fuel cfg a o st st',
     connect_address fuel cfg a o st = Some st' ->
     count_tlsa_usable st' =
       Nat.iter (records_accepted o st) incr_int (count_tlsa_usable st) /\
     calls is_tlsa_add_accepted (trace st') =
       (calls is_tlsa_add_accepted (trace st) + records_accepted o st)%nat) /\
  (forall fuel cfg gaip st st',
     address_loop fuel cfg gaip st = Some st' ->
     exists K : nat,
       calls is_tlsa_add_accepted (trace st') =
         (calls is_tlsa_add_accepted (trace st) + K)%nat /\
       count_tlsa_usable st' = Nat.iter K incr_int (count_tlsa_usable st) /\
       (K <= List.length gaip * List.length (tlsa_rdata_list st))%nat) /\
  (forall fuel cfg w gaip st',
     address_loop fuel cfg gaip (snd (prelude cfg w)) = Some st' ->
     count_tlsa_usable st' =
       Nat.iter (calls is_tlsa_add_accepted (trace st')) incr_int 0) /\
  (forall fuel cfg a o st st',
     connect_address fuel cfg a o st = Some st' ->
     usable_aborts (trace st') =
       Nat.add (usable_aborts (trace st))
         (if session_is_bound o st && is_MODE_DANE (auth_mode cfg) &&
             (count_tlsa_usable st' =? 0)
          then 1%nat else 0%nat)) /\
  (forall fuel cfg gaip st st',
     address_loop fuel cfg gaip st = Some st' ->
     0 < count_tlsa_usable st ->
     count_tlsa_usable st +
       Z.of_nat (List.length gaip) * Z.of_nat (List.length (tlsa_rdata_list st))
       <= INT_MAX ->
     usable_aborts (trace st') = usable_aborts (trace st) /\
     count_tlsa_usable st <= count_tlsa_usable st').
Proof.
  split; [reflexivity |].
  split; [intros cfg w; apply prelude_counters |].
  split.
  { intros fuel cfg a o st st' H.
    destruct (connect_address_usable_exact _ _ _ _ _ _ H) as (Hc & Ha & _).
    split; assumption. }
  split; [intros fuel cfg gaip st st'; apply address_loop_usable_exact |].
  split; [intros fuel cfg w gaip st'; apply address_loop_cumulative |].
  split; [| intros fuel cfg gaip st st'; apply address_loop_no_usable_abort].
  intros fuel cfg a o st st' H.
  apply (connect_address_usable_exact _ _ _ _ _ _ H).
Qed.

Lemma usable_count_accumulates_witness :
  let cfg := sample_config MODE_DANE in
  let st0 := snd (prelude cfg world_two_addresses) in
  exists st1 st2,
    address_loop 2 cfg [(sample_address, oracle_ok)] st0 = Some st1 /\
    0 < count_tlsa_usable st1 /\
    address_loop 2 cfg [(sample_address6, oracle_unusable)] st1 = Some st2 /\
    usable_aborts (trace st2) = usable_aborts (trace st1) /\
    count_tlsa_usable st1 <= count_tlsa_usable st2.
Proof.
  intros cfg st0.
  destruct (address_loop 2 cfg [(sample_address, oracle_ok)] st0)
    as [st1|] eqn:E1; [| vm_compute in E1; discriminate E1].
  assert (Hc : count_tlsa_usable st1 = 1 /\
               List.length (tlsa_rdata_list st1) = 1%nat)
    by (vm_compute in E1; injection E1 as <-; split; reflexivity).
  destruct Hc as [Hc Hl].
  destruct (address_loop 2 cfg [(sample_address6, oracle_unusable)] st1)
    as [st2|] eqn:E2.
  2:{ exfalso. revert E2. vm_compute in E1. injection E1 as <-.
      vm_compute. discriminate. }
  exists st1, st2. split; [reflexivity |].
  assert (Hpos : 0 < count_tlsa_usable st1) by (rewrite Hc; reflexivity).
  split; [exact Hpos |]. split; [exact E2 |].
  destruct usable_count_accumulates as (_ & _ & _ & _ & _ & _ & Hlate).
  apply (Hlate 2%nat cfg [(sample_address6, oracle_unusable)] st1 st2 E2 Hpos).
  rewrite Hc, Hl. vm_compute. discriminate.
Defined.

(** * More of the program *)

(** ** Every address is tried, in order *)

Lemma connect_address_socket fuel cfg a o st st' :
  connect_address fuel cfg a o st = Some st' ->
  collect socket_address (trace st') = collect socket_address (trace st) ++ [a].
Proof. collect_paths socket_address; collect_finish. Qed.

Lemma address_loop_socket fuel cfg gaip st st' :
  address_loop fuel cfg gaip st = Some st' ->
  collect socket_address (trace st') =
    collect socket_address (trace st) ++ map fst gaip.
Proof.
  revert st.
  induction gaip as [|[a o] next IH]; intros st H; simpl in H.
  - injection H as <-. now rewrite app_nil_r.
  - destruct (connect_address fuel cfg a o st) as [st1|] eqn:H1; [| discriminate].
    rewrite (IH _ H), (connect_address_socket _ _ _ _ _ _ H1).
    now rewrite <- app_assoc.
Qed.

Lemma collect_no_contact {X : Type} (f : event -> list X) l :
  (forall e, contacts_address e = false -> f e = []) ->
  existsb contacts_address l = false -> collect f l = [].
Proof.
  intros Hf. unfold collect.
  induction l as [|e l IH]; cbn; [reflexivity |].
  intros H. apply orb_false_iff in H as [He Hl].
  now rewrite (Hf e He), IH.
Qed.

(** X1.  A finished run that reaches the address loop calls [socket] once
    for every resolved address, in the order of the list, whatever
    happens to the earlier addresses; a run that leaves before the loop
    calls it for none. *)
Theorem every_address_is_tried (fuel : nat) (cfg : config) (w : world)
    (code : Z) (st : state) :
  main fuel cfg w = Some (code, st) ->
  collect socket_address (trace st) =
    if fst (prelude cfg w) then [] else map fst (w_addresses w).
Proof.
  assert (Hpre : collect socket_address (trace (snd (prelude cfg w))) = []).
  { apply collect_no_contact; [| apply prelude_trace].
    intros e; destruct e; cbn; congruence. }
  unfold main. destruct (prelude cfg w) as [goto st0]. cbn [fst snd] in *.
  destruct goto.
  - rewrite cleanup_spec. intros H; injection H as _ <-. cbn [trace].
    unfold collect in *. rewrite flat_map_app, Hpre.
    destruct (ctx st0); reflexivity.
  - destruct (address_loop fuel cfg (w_addresses w) st0) as [st1|] eqn:Hl;
      [| discriminate].
    rewrite cleanup_spec. intros H; injection H as _ <-. cbn [trace].
    apply address_loop_socket in Hl. rewrite Hpre in Hl.
    unfold collect in *. rewrite flat_map_app, Hl.
    destruct (ctx st1); cbn; now rewrite app_nil_r.
Qed.

Lemma every_address_is_tried_witness :
  exists code st,
    main 2 (sample_config MODE_BOTH) world_two_addresses = Some (code, st) /\
    collect socket_address (trace st) = [sample_address; sample_address6].
Proof.
  destruct (main 2 (sample_config MODE_BOTH) world_two_addresses)
    as [[code st]|] eqn:E; [| vm_compute in E; discriminate E].
  exists code, st. split; [reflexivity |].
  exact (every_address_is_tried _ _ _ _ _ E).
Defined.

(** ** Sockets and sessions are released *)

Ltac calls_paths4 p1 p2 p3 p4 :=
  iteration_paths
    ltac:(fun o l s t =>
      let H1 := fresh "Htlsa" in
      let H2 := fresh "Htlsa" in
      let H3 := fresh "Htlsa" in
      let H4 := fresh "Htlsa" in
      pose proof (tlsa_add_loop_calls_any p1 o l 0 s t
                    (fun _ _ => eq_refl) (fun _ => eq_refl)) as H1;
      pose proof (tlsa_add_loop_calls_any p2 o l 0 s t
                    (fun _ _ => eq_refl) (fun _ => eq_refl)) as H2;
      pose proof (tlsa_add_loop_calls_any p3 o l 0 s t
                    (fun _ _ => eq_refl) (fun _ => eq_refl)) as H3;
      pose proof (tlsa_add_loop_calls_any p4 o l 0 s t
                    (fun _ _ => eq_refl) (fun _ => eq_refl)) as H4)
    ltac:(fun Hs =>
      let H1 := fresh "Hshutdown" in
      let H2 := fresh "Hshutdown" in
      let H3 := fresh "Hshutdown" in
      let H4 := fresh "Hshutdown" in
      pose proof (SSL_shutdown_loop_calls_any p1 _ _ _ _ _
                    (fun _ => eq_refl) Hs) as H1;
      pose proof (SSL_shutdown_loop_calls_any p2 _ _ _ _ _
                    (fun _ => eq_refl) Hs) as H2;
      pose proof (SSL_shutdown_loop_calls_any p3 _ _ _ _ _
                    (fun _ => eq_refl) Hs) as H3;
      pose proof (SSL_shutdown_loop_calls_any p4 _ _ _ _ _
                    (fun _ => eq_refl) Hs) as H4;
      clear Hs).

(** What is known of the loops, event by event. *)
Ltac calls_facts :=
  trace_norm;
  repeat match goal with
         | H : calls _ (trace _) = _ |- _ => trace_norm_in H; revert H
         end.

Lemma connect_address_balance fuel cfg a o st st' :
  attempt_dane st = false \/
  tlsa_add_failures o (tlsa_rdata_list st) 0 = 0%nat ->
  connect_address fuel cfg a o st = Some st' ->
  (calls is_close (trace st') + calls is_socket_opened (trace st) =
   calls is_close (trace st) + calls is_socket_opened (trace st'))%nat /\
  (calls is_SSL_free (trace st') + calls is_SSL_new_ok (trace st) =
   calls is_SSL_free (trace st) + calls is_SSL_new_ok (trace st'))%nat.
Proof.
  intros Hno.
  calls_paths4 is_close is_socket_opened is_SSL_free is_SSL_new_ok;
    try (destruct Hno as [Hno | Hno]; [congruence |]; rewrite Hno in * );
    calls_facts;
    unfold calls;
    cbn [filter List.length is_close is_socket_opened is_SSL_free
         is_SSL_new_ok Nat.mul];
    rewrite ?Hsocket; cbn [negb]; lia.
Qed.

Lemma no_tlsa_add_failure_cons st a o gaip :
  no_tlsa_add_failure st ((a, o) :: gaip) ->
  (attempt_dane st = false \/
   tlsa_add_failures o (tlsa_rdata_list st) 0 = 0%nat) /\
  no_tlsa_add_failure st gaip.
Proof.
  intros [Hd | Hall]; [split; left; exact Hd |].
  inversion Hall as [|x l Hx Hl]; subst. split; right; assumption.
Qed.

Lemma no_tlsa_add_failure_steps P st st' gaip :
  steps P st st' -> no_tlsa_add_failure st gaip -> no_tlsa_add_failure st' gaip.
Proof.
  intros (Ha & Hl & _) H. unfold no_tlsa_add_failure in *.
  now rewrite Ha, Hl.
Qed.

Lemma address_loop_balance fuel cfg gaip st st' :
  no_tlsa_add_failure st gaip ->
  address_loop fuel cfg gaip st = Some st' ->
  (calls is_close (trace st') + calls is_socket_opened (trace st) =
   calls is_close (trace st) + calls is_socket_opened (trace st'))%nat /\
  (calls is_SSL_free (trace st') + calls is_SSL_new_ok (trace st) =
   calls is_SSL_free (trace st) + calls is_SSL_new_ok (trace st'))%nat.
Proof.
  revert st.
  induction gaip as [|[a o] next IH]; intros st Hno H; simpl in H.
  - injection H as <-. split; lia.
  - destruct (connect_address fuel cfg a o st) as [st1|] eqn:H1; [| discriminate].
    apply no_tlsa_add_failure_cons in Hno as [Hhere Hnext].
    destruct (connect_address_balance _ _ _ _ _ _ Hhere H1) as [Hc Hs].
    apply connect_address_steps in H1.
    destruct (IH st1 (no_tlsa_add_failure_steps _ _ _ _ H1 Hnext) H) as [Hc' Hs'].
    split; lia.
Qed.

Lemma calls_no_contact p l :
  (forall e, contacts_address e = false -> p e = false) ->
  existsb contacts_address l = false -> calls p l = 0%nat.
Proof.
  intros Hp. unfold calls.
  induction l as [|e l IH]; cbn; [reflexivity |].
  intros H. apply orb_false_iff in H as [He Hl].
  now rewrite (Hp e He), IH.
Qed.

Lemma prelude_releases_nothing cfg w :
  calls is_close (trace (snd (prelude cfg w))) = 0%nat /\
  calls is_SSL_free (trace (snd (prelude cfg w))) = 0%nat.
Proof. prelude_cases cfg w; split; reflexivity. Qed.

(** X2.  In a finished run in which no [SSL_dane_tlsa_add] call fails,
    [close] is called exactly as often as [socket] returned a
    descriptor, and [SSL_free] exactly as often as [SSL_new] returned a
    session: every path through the loop body releases what it
    acquired, once. *)
Theorem sockets_and_sessions_released (fuel : nat) (cfg : config) (w : world)
    (code : Z) (st : state) :
  main fuel cfg w = Some (code, st) ->
  no_tlsa_add_failure (snd (prelude cfg w)) (w_addresses w) ->
  calls is_close (trace st) = calls is_socket_opened (trace st) /\
  calls is_SSL_free (trace st) = calls is_SSL_new_ok (trace st).
Proof.
  intros Hm Hno.
  destruct (prelude_releases_nothing cfg w) as [Hc0 Hf0].
  assert (Ho0 : calls is_socket_opened (trace (snd (prelude cfg w))) = 0%nat).
  { apply calls_no_contact; [| apply prelude_trace].
    intros e; destruct e; cbn; congruence. }
  assert (Hn0 : calls is_SSL_new_ok (trace (snd (prelude cfg w))) = 0%nat).
  { apply calls_no_contact; [| apply prelude_trace].
    intros e; destruct e; cbn; congruence. }
  revert Hm. unfold main.
  destruct (prelude cfg w) as [goto st0]. cbn [fst snd] in *.
  destruct goto.
  - rewrite cleanup_spec. intros H; injection H as _ <-. cbn [trace].
    rewrite !calls_app, Hc0, Hf0, Ho0, Hn0.
    destruct (ctx st0); split; reflexivity.
  - destruct (address_loop fuel cfg (w_addresses w) st0) as [st1|] eqn:Hl;
      [| discriminate].
    rewrite cleanup_spec. intros H; injection H as _ <-. cbn [trace].
    destruct (address_loop_balance _ _ _ _ _ Hno Hl) as [Hc Hs].
    rewrite !calls_app.
    assert (Hcl : forall c,
      calls is_close (cleanup_events c) = 0%nat /\
      calls is_socket_opened (cleanup_events c) = 0%nat /\
      calls is_SSL_free (cleanup_events c) = 0%nat /\
      calls is_SSL_new_ok (cleanup_events c) = 0%nat)
      by (intros [|]; repeat split).
    destruct (Hcl (ctx st1)) as (-> & -> & -> & ->).
    split; lia.
Qed.

Lemma sockets_and_sessions_released_witness :
  exists code st,
    main 2 (sample_config MODE_BOTH) world_two_addresses = Some (code, st) /\
    calls is_close (trace st) = 2%nat /\
    calls is_socket_opened (trace st) = 2%nat /\
    calls is_SSL_free (trace st) = calls is_SSL_new_ok (trace st).
Proof.
  destruct (main 2 (sample_config MODE_BOTH) world_two_addresses)
    as [[code st]|] eqn:E; [| vm_compute in E; discriminate E].
  exists code, st. split; [reflexivity |].
  assert (Hno : no_tlsa_add_failure
                  (snd (prelude (sample_config MODE_BOTH) world_two_addresses))
                  (w_addresses world_two_addresses)).
  { right. repeat constructor. }
  destruct (sockets_and_sessions_released _ _ _ _ _ E Hno) as [Hc Hs].
  split; [| split; [| exact Hs]].
  - vm_compute in E. injection E as _ <-. reflexivity.
  - rewrite <- Hc. vm_compute in E. injection E as _ <-. reflexivity.
Defined.

(** ** One verdict per address *)

Lemma address_loop_tally fuel cfg gaip st st' :
  no_tlsa_add_failure st gaip ->
  address_loop fuel cfg gaip st = Some st' ->
  0 <= count_success st -> 0 <= count_fail st ->
  count_success st + count_fail st + Z.of_nat (List.length gaip) <= INT_MAX ->
  count_success st' + count_fail st' =
    count_success st + count_fail st + Z.of_nat (List.length gaip) /\
  count_success st <= count_success st' /\
  count_fail st <= count_fail st'.
Proof.
  revert st.
  induction gaip as [|[a o] next IH]; intros st Hno H Hs Hf Hmax; simpl in H.
  - injection H as <-. cbn [List.length]. lia.
  - destruct (connect_address fuel cfg a o st) as [st1|] eqn:H1; [| discriminate].
    apply no_tlsa_add_failure_cons in Hno as [Hhere Hnext].
    destruct (connect_address_counters _ _ _ _ _ _ H1)
      as (k & f & _ & Hfle & Hnd & _ & Hsf).
    assert (Hf0 : f = 0%nat)
      by (destruct Hhere as [Hd | Hz]; [apply Hnd in Hd; lia | lia]).
    subst f. change (Nat.iter 1 incr_int (count_fail st))
      with (incr_int (count_fail st)) in Hsf.
    change (Nat.iter 0 incr_int (count_fail st)) with (count_fail st) in Hsf.
    cbn [List.length] in Hmax. rewrite Nat2Z.inj_succ in Hmax.
    apply connect_address_steps in H1.
    pose proof (no_tlsa_add_failure_steps _ _ _ _ H1 Hnext) as Hno1.
    destruct Hsf as [[Hs1 Hf1] | [Hs1 Hf1]].
    + rewrite incr_int_in_range in Hf1 by lia.
      destruct (IH st1 Hno1 H) as (Ht & Hs' & Hf'); [lia | lia | lia |].
      cbn [List.length]. rewrite Nat2Z.inj_succ. lia.
    + rewrite incr_int_in_range in Hs1 by lia.
      destruct (IH st1 Hno1 H) as (Ht & Hs' & Hf'); [lia | lia | lia |].
      cbn [List.length]. rewrite Nat2Z.inj_succ. lia.
Qed.

(** X3.  In a finished run that reaches the address loop, with no failed
    [SSL_dane_tlsa_add] and fewer than [INT_MAX] addresses, every
    resolved address is counted exactly once, as a success or as a
    failure.  So the return status is 0 exactly when there is at least
    one address and all of them succeeded, 1 exactly when some but not
    all succeeded, and 2 exactly when none did. *)
Theorem one_verdict_per_address (fuel : nat) (cfg : config) (w : world)
    (code : Z) (st : state) :
  main fuel cfg w = Some (code, st) ->
  fst (prelude cfg w) = false ->
  no_tlsa_add_failure (snd (prelude cfg w)) (w_addresses w) ->
  Z.of_nat (List.length (w_addresses w)) <= INT_MAX ->
  let n := Z.of_nat (List.length (w_addresses w)) in
  0 <= count_success st /\ 0 <= count_fail st /\
  count_success st + count_fail st = n /\
  (code = 0 <-> 0 < n /\ count_success st = n) /\
  (code = 1 <-> 0 < count_success st < n) /\
  (code = 2 <-> count_success st = 0).
Proof.
  intros Hm Hg Hno Hmax n.
  destruct (prelude_counters cfg w) as (Hs0 & Hf0 & _).
  revert Hm. unfold main.
  destruct (prelude cfg w) as [goto st0]. cbn [fst snd] in *. subst goto.
  destruct (address_loop fuel cfg (w_addresses w) st0) as [st1|] eqn:Hl;
    [| discriminate].
  rewrite cleanup_spec. intros H; injection H as <- <-.
  cbn [count_success count_fail].
  destruct (address_loop_tally _ _ _ _ _ Hno Hl) as (Ht & Hs & Hf); try lia.
  rewrite Hs0, Hf0 in *. fold n in Ht.
  split; [lia |]. split; [lia |]. split; [lia |].
  unfold exit_status.
  destruct (0 <? count_success st1) eqn:Hpos;
    destruct (count_fail st1 =? 0) eqn:Hzero; cbn [andb negb];
    [ apply Z.ltb_lt in Hpos; apply Z.eqb_eq in Hzero
    | apply Z.ltb_lt in Hpos; apply Z.eqb_neq in Hzero
    | apply Z.ltb_ge in Hpos; apply Z.eqb_eq in Hzero
    | apply Z.ltb_ge in Hpos; apply Z.eqb_neq in Hzero ];
    repeat split; intros; try lia.
Qed.

Lemma one_verdict_per_address_witness :
  exists code st,
    main 2 (sample_config MODE_BOTH) world_two_addresses = Some (code, st) /\
    count_success st + count_fail st = 2 /\
    (code = 1 <-> 0 < count_success st < 2).
Proof.
  destruct (main 2 (sample_config MODE_BOTH) world_two_addresses)
    as [[code st]|] eqn:E; [| vm_compute in E; discriminate E].
  exists code, st. split; [reflexivity |].
  assert (Hno : no_tlsa_add_failure
                  (snd (prelude (sample_config MODE_BOTH) world_two_addresses))
                  (w_addresses world_two_addresses)).
  { right. repeat constructor. }
  assert (Hmax : Z.of_nat (List.length (w_addresses world_two_addresses))
                 <= INT_MAX) by (vm_compute; discriminate).
  destruct (one_verdict_per_address _ _ _ _ _ E eq_refl Hno Hmax)
    as (_ & _ & Hsum & _ & Hone & _).
  split; [exact Hsum | exact Hone].
Defined.

(** ** What stops a run before the loop *)

Ltac flags_norm_le :=
  flags_norm;
  repeat match goal with
         | H : (_ <=? _) = true |- _ => apply Z.leb_le in H
         | H : (_ <=? _) = false |- _ => apply Z.leb_gt in H
         end.

(** X4.  The run leaves before the address loop exactly when one of the
    fatal conditions holds: no resolver, a bogus or indeterminate answer,
    DANE-only mode without a non-empty, authenticated TLSA set and
    authenticated addresses of both families, a certificate store that
    cannot be loaded (the default one without [-c], the named one with
    it), or [SSL_CTX_dane_enable] failing.  In the other two modes
    missing or insecure TLSA evidence never stops the run. *)
Theorem fatal_errors_before_loop (cfg : config) (w : world) :
  fst (prelude cfg w) = true <-> fatal_before_loop cfg w.
Proof.
  unfold fatal_before_loop.
  prelude_cases cfg w; flags_norm_le;
    (split; [ intros Hx; try discriminate Hx; clear Hx | intros Hx ]);
    try reflexivity;
    try (exfalso; intuition (congruence || lia));
    intuition (congruence || lia).
Qed.

Lemma fatal_errors_before_loop_witness :
  fatal_before_loop (sample_config MODE_BOTH) world_bogus /\
  fst (prelude (sample_config MODE_BOTH) world_bogus) = true /\
  fst (prelude (sample_config MODE_BOTH)
         (secure_world [(sample_address, oracle_ok)] [])) = false.
Proof.
  assert (H : fatal_before_loop (sample_config MODE_BOTH) world_bogus)
    by (right; left; discriminate).
  split; [exact H |]. split.
  - apply (proj2 (fatal_errors_before_loop _ _) H).
  - destruct (fst (prelude (sample_config MODE_BOTH)
                     (secure_world [(sample_address, oracle_ok)] []))) eqn:E;
      [| reflexivity].
    apply (proj1 (fatal_errors_before_loop _ _)) in E.
    unfold fatal_before_loop in E. cbn in E.
    intuition (discriminate || lia).
Defined.

(** ** What every run releases at its end *)

Lemma calls_loop_events p cfg dane new :
  (forall e, loop_event cfg dane e -> p e = false) ->
  Forall (loop_event cfg dane) new -> calls p new = 0%nat.
Proof.
  intros Hp Hall. unfold calls.
  induction Hall as [|e l He _ IH]; cbn; [reflexivity |].
  now rewrite (Hp e He), IH.
Qed.

Lemma prelude_acquires cfg w :
  let st0 := snd (prelude cfg w) in
  calls is_freeaddrinfo (trace st0) = 0%nat /\
  calls is_free_tlsa (trace st0) = 0%nat /\
  calls is_SSL_CTX_free (trace st0) = 0%nat /\
  calls is_SSL_CTX_new (trace st0) = Nat.b2n (ctx st0) /\
  calls is_resolver_deep_free (trace st0) = Nat.b2n (w_resolver w).
Proof. cbv zeta. prelude_cases cfg w; repeat split. Qed.

(** X5.  Every finished run, whichever way it leaves, ends with
    [freeaddrinfo] and [free_tlsa], each called exactly once, followed
    by [SSL_CTX_free] exactly when a context was created; the context is
    created at most once, and the resolver is freed exactly when one
    was obtained. *)
Theorem run_resources_released (fuel : nat) (cfg : config) (w : world)
    (code : Z) (st : state) :
  main fuel cfg w = Some (code, st) ->
  calls is_freeaddrinfo (trace st) = 1%nat /\
  calls is_free_tlsa (trace st) = 1%nat /\
  calls is_SSL_CTX_free (trace st) = calls is_SSL_CTX_new (trace st) /\
  (calls is_SSL_CTX_new (trace st) <= 1)%nat /\
  calls is_resolver_deep_free (trace st) = (if w_resolver w then 1 else 0)%nat /\
  exists before, trace st = before ++ cleanup_events (ctx st).
Proof.
  intros Hm.
  destruct (main_shape _ _ _ _ _ Hm) as (_ & _ & _ & new & Ht & Hf & _).
  destruct (prelude_acquires cfg w) as (H1 & H2 & H3 & H4 & H5).
  assert (Hctx : ctx st = ctx (snd (prelude cfg w))).
  { revert Hm. unfold main. destruct (prelude cfg w) as [[|] st0]; cbn [snd].
    - rewrite cleanup_spec. intros H; injection H as _ <-. reflexivity.
    - destruct (address_loop fuel cfg (w_addresses w) st0) as [st1|] eqn:Hl;
        [| discriminate].
      rewrite cleanup_spec. intros H; injection H as _ <-. cbn [ctx].
      apply (address_loop_steps _ _ _ _ _ Hl). }
  assert (Hnew : forall p,
            (forall e, loop_event cfg (attempt_dane (snd (prelude cfg w))) e ->
                       p e = false) ->
            calls p new = 0%nat)
    by (intros p Hp; eapply calls_loop_events; eauto).
  rewrite Ht, !calls_app, H1, H2, H3, H4, H5.
  rewrite !Hnew by (intros e He; destruct He; reflexivity).
  rewrite Hctx. unfold Nat.b2n.
  split; [| split; [| split; [| split; [| split]]]];
    try (destruct (ctx (snd (prelude cfg w))); destruct (w_resolver w);
         cbn; lia).
  exists (trace (snd (prelude cfg w)) ++ new). now rewrite app_assoc.
Qed.

Lemma run_resources_released_witness :
  exists code st,
    main 2 (sample_config MODE_BOTH) world_two_addresses = Some (code, st) /\
    calls is_freeaddrinfo (trace st) = 1%nat /\
    calls is_SSL_CTX_free (trace st) = calls is_SSL_CTX_new (trace st).
Proof.
  destruct (main 2 (sample_config MODE_BOTH) world_two_addresses)
    as [[code st]|] eqn:E; [| vm_compute in E; discriminate E].
  exists code, st. split; [reflexivity |].
  destruct (run_resources_released _ _ _ _ _ E) as (H1 & _ & H3 & _).
  split; assumption.
Defined.

(** ** STARTTLS before the handshake, SNI after [SSL_set1_host] *)

Lemma connect_address_gates fuel cfg a o st st' :
  connect_address fuel cfg a o st = Some st' ->
  (calls is_tlsext_host_name (trace st') + calls is_set1_host_ok (trace st) =
   calls is_tlsext_host_name (trace st) + calls is_set1_host_ok (trace st'))%nat /\
  (starttls cfg = STARTTLS_NONE ->
   calls (is_call Call_do_starttls) (trace st') =
   calls (is_call Call_do_starttls) (trace st)) /\
  (starttls cfg <> STARTTLS_NONE -> o_do_starttls o = false ->
   calls is_SSL_connect (trace st') = calls is_SSL_connect (trace st)) /\
  (starttls cfg <> STARTTLS_NONE ->
   calls is_SSL_connect (trace st') = S (calls is_SSL_connect (trace st)) ->
   calls (is_call Call_do_starttls) (trace st') =
   S (calls (is_call Call_do_starttls) (trace st))).
Proof.
  calls_paths4 is_tlsext_host_name is_set1_host_ok is_SSL_connect
               (is_call Call_do_starttls);
    calls_facts;
    unfold calls;
    cbn [filter List.length is_tlsext_host_name is_set1_host_ok
         is_SSL_connect is_call Nat.mul];
    rewrite ?Hbind; intros;
    (split; [| split; [| split]]); intros; try congruence; lia.
Qed.

(** X6.  When a STARTTLS application is configured, the handshake on an
    address depends on [do_starttls]: if it fails, no [SSL_connect] is
    made for that address, and an iteration that makes an [SSL_connect]
    call has made a [do_starttls] call.  Without [-s], [do_starttls] is
    not called at all. *)
Theorem starttls_gates_handshake (fuel : nat) (cfg : config) (a : addrinfo)
    (o : conn_oracle) (st st' : state) :
  connect_address fuel cfg a o st = Some st' ->
  (starttls cfg = STARTTLS_NONE ->
   calls (is_call Call_do_starttls) (trace st') =
   calls (is_call Call_do_starttls) (trace st)) /\
  (starttls cfg <> STARTTLS_NONE -> o_do_starttls o = false ->
   calls is_SSL_connect (trace st') = calls is_SSL_connect (trace st)) /\
  (starttls cfg <> STARTTLS_NONE ->
   calls is_SSL_connect (trace st') = S (calls is_SSL_connect (trace st)) ->
   calls (is_call Call_do_starttls) (trace st') =
   S (calls (is_call Call_do_starttls) (trace st))).
Proof. intros H. apply (connect_address_gates _ _ _ _ _ _ H). Qed.

Lemma starttls_gates_handshake_witness :
  let cfg := mk_config MODE_BOTH None None STARTTLS_SMTP "example.com" 25 in
  let o := mk_oracle 3 0 true 1 1 (fun _ => 1) false 1 X509_V_OK (fun _ => 1) in
  exists st',
    connect_address 1 cfg sample_address o init_state = Some st' /\
    calls is_SSL_connect (trace st') = 0%nat /\
    calls (is_call Call_do_starttls) (trace st') = 1%nat.
Proof.
  intros cfg o.
  destruct (connect_address 1 cfg sample_address o init_state)
    as [st'|] eqn:E; [| vm_compute in E; discriminate E].
  exists st'. split; [reflexivity |].
  destruct (starttls_gates_handshake _ _ _ _ _ _ E) as (_ & Hfail & _).
  split.
  - rewrite Hfail; [reflexivity | discriminate | reflexivity].
  - vm_compute in E. injection E as <-. reflexivity.
Defined.

Lemma address_loop_sni fuel cfg gaip st st' :
  address_loop fuel cfg gaip st = Some st' ->
  (calls is_tlsext_host_name (trace st') + calls is_set1_host_ok (trace st) =
   calls is_tlsext_host_name (trace st) + calls is_set1_host_ok (trace st'))%nat.
Proof.
  revert st.
  induction gaip as [|[a o] next IH]; intros st H; simpl in H.
  - injection H as <-. lia.
  - destruct (connect_address fuel cfg a o st) as [st1|] eqn:H1; [| discriminate].
    apply connect_address_gates in H1 as [H1 _]. apply IH in H. lia.
Qed.

(** X7.  In a finished run [SSL_set_tlsext_host_name] is called exactly
    once for every successful [SSL_set1_host], with the configured host
    name, and never in a run that attempts DANE, where
    [SSL_dane_enable] is left to send the SNI extension. *)
Theorem sni_set_explicitly_for_pkix (fuel : nat) (cfg : config) (w : world)
    (code : Z) (st : state) :
  main fuel cfg w = Some (code, st) ->
  calls is_tlsext_host_name (trace st) = calls is_set1_host_ok (trace st) /\
  (forall h, In (Ev_SSL_set_tlsext_host_name h) (trace st) ->
             h = hostname cfg /\ attempt_dane st = false).
Proof.
  intros Hm. split.
  - assert (Ht0 : calls is_tlsext_host_name (trace (snd (prelude cfg w))) = 0%nat).
    { apply calls_no_contact; [| apply prelude_trace].
      intros e; destruct e; cbn; congruence. }
    assert (Hs0 : calls is_set1_host_ok (trace (snd (prelude cfg w))) = 0%nat).
    { apply calls_no_contact; [| apply prelude_trace].
      intros e; destruct e; cbn; congruence. }
    revert Hm. unfold main.
    destruct (prelude cfg w) as [goto st0]. cbn [fst snd] in *.
    destruct goto.
    + rewrite cleanup_spec. intros H; injection H as _ <-. cbn [trace].
      rewrite !calls_app, Ht0, Hs0. destruct (ctx st0); reflexivity.
    + destruct (address_loop fuel cfg (w_addresses w) st0) as [st1|] eqn:Hl;
        [| discriminate].
      rewrite cleanup_spec. intros H; injection H as _ <-. cbn [trace].
      apply address_loop_sni in Hl. rewrite !calls_app.
      assert (Hcl : forall c,
        calls is_tlsext_host_name (cleanup_events c) = 0%nat /\
        calls is_set1_host_ok (cleanup_events c) = 0%nat)
        by (intros [|]; split; reflexivity).
      destruct (Hcl (ctx st1)) as (-> & ->). lia.
  - intros h Hin.
    destruct (main_loop_event _ _ _ _ _ _ Hm Hin eq_refl) as [He _].
    destruct (main_shape _ _ _ _ _ Hm) as (_ & Ha & _).
    inversion He; subst. split; [reflexivity | congruence].
Qed.

Lemma sni_set_explicitly_for_pkix_witness :
  exists code st,
    main 2 (sample_config MODE_PKIX) world_two_addresses = Some (code, st) /\
    calls is_tlsext_host_name (trace st) = 2%nat /\
    calls is_set1_host_ok (trace st) = 2%nat.
Proof.
  destruct (main 2 (sample_config MODE_PKIX) world_two_addresses)
    as [[code st]|] eqn:E; [| vm_compute in E; discriminate E].
  exists code, st. split; [reflexivity |].
  destruct (sni_set_explicitly_for_pkix _ _ _ _ _ E) as [Heq _].
  rewrite Heq. vm_compute in E. injection E as _ <-. split; reflexivity.
Defined.

(** ** When an address counts as a success *)

Lemma incr_int_neq (c : Z) : incr_int c <> c.
Proof.
  unfold incr_int, wrap_int. intros H.
  pose proof (Z.mod_pos_bound (c + 1 + 2147483648) 4294967296 eq_refl) as Hb.
  pose proof (Z.div_mod (c + 1 + 2147483648) 4294967296) as Hd.
  lia.
Qed.

(** X8.  An address is counted as a success exactly when every step of
    its attempt succeeded: [socket], [connect], [SSL_new], the host
    binding of the mode, the usable-records test of DANE-only mode (on
    the counter as it stands after this address's records), STARTTLS
    when configured, [SSL_connect], and a verification result of
    [X509_V_OK].  Otherwise [count_success] is left as it was. *)
Theorem success_needs_every_step (fuel : nat) (cfg : config) (a : addrinfo)
    (o : conn_oracle) (st st' : state) :
  connect_address fuel cfg a o st = Some st' ->
  (count_success st' = incr_int (count_success st) <->
   address_verifies cfg o (attempt_dane st)
     (Nat.iter (if attempt_dane st
                then tlsa_add_usable o (tlsa_rdata_list st) 0 else 0%nat)
               incr_int (count_tlsa_usable st)) = true) /\
  (count_success st' = incr_int (count_success st) \/
   count_success st' = count_success st).
Proof.
  iteration_paths
    ltac:(fun o l s t =>
      let Hc := fresh "Htlsa" in
      pose proof (tlsa_add_loop_counters o l 0 s t) as Hc)
    ltac:(fun Hs =>
      let Hc := fresh "Hshutdown" in
      pose proof (SSL_shutdown_loop_counters _ _ _ _ _ Hs) as Hc; clear Hs);
    repeat match goal with
           | H : let _ := _ in _ |- _ => cbv zeta in H
           | H : _ /\ _ |- _ => destruct H
           end;
    repeat match goal with
           | H : count_success _ = _ |- _ => progress counters_norm_in H
           | H : count_tlsa_usable _ = _ |- _ => progress counters_norm_in H
           | H : count_fail _ = _ |- _ => clear H
           end.
  all: try match goal with
           | Hu : (_ && (count_tlsa_usable _ =? 0)) = _ |- _ =>
               counters_norm_in Hu;
               try match goal with
                   | H : count_tlsa_usable _ = _ |- _ => rewrite H in Hu
                   end
           end.
  all: counters_norm;
    repeat match goal with
           | H : count_success ?x = _ |- context [count_success ?x] =>
               rewrite H; counters_norm
           end.
  all: unfold address_verifies;
    rewrite ?Hsocket, ?Hconnect, ?Hnew, ?Hdane, ?Hbind, ?Hstarttls, ?Hdo,
            ?Hhandshake, ?Hverify;
    cbn [Nat.iter nat_rect]; rewrite ?Husable; cbn [negb andb].
  all: split;
    [ split; intros Hx;
      solve [ reflexivity | discriminate Hx
            | exfalso; exact (incr_int_neq _ (eq_sym Hx)) ]
    | solve [left; reflexivity | right; reflexivity] ].
Qed.

Lemma success_needs_every_step_witness :
  let cfg := sample_config MODE_DANE in
  let st0 := snd (prelude cfg world_two_addresses) in
  address_verifies cfg oracle_verify_fails (attempt_dane st0)
    (Nat.iter (if attempt_dane st0
               then tlsa_add_usable oracle_verify_fails (tlsa_rdata_list st0) 0
               else 0%nat) incr_int (count_tlsa_usable st0)) = false /\
  exists st',
    connect_address 1 cfg sample_address6 oracle_verify_fails st0 = Some st' /\
    count_success st' <> incr_int (count_success st0).
Proof.
  intros cfg st0. split; [reflexivity |].
  destruct (connect_address 1 cfg sample_address6 oracle_verify_fails st0)
    as [st'|] eqn:E; [| vm_compute in E; discriminate E].
  exists st'. split; [reflexivity |].
  intros Hx.
  apply (proj1 (success_needs_every_step _ _ _ _ _ _ E)) in Hx.
  discriminate Hx.
Defined.

(** ** The TLSA records of a session *)

Lemma tlsa_add_loop_session o rps i ssl st :
  ssl_tlsa (fst (tlsa_add_loop o rps i ssl st)) =
    ssl_tlsa ssl ++ usable_records o rps i.
Proof.
  revert i ssl st.
  induction rps as [|rp next IH]; intros i ssl st; simpl;
    [now rewrite app_nil_r |].
  destruct (o_SSL_dane_tlsa_add o i <? 0) eqn:Hneg.
  - assert (Hpos : (0 <? o_SSL_dane_tlsa_add o i) = false) by lia.
    now rewrite Hpos, IH.
  - destruct (o_SSL_dane_tlsa_add o i =? 0) eqn:Hz.
    + assert (Hpos : (0 <? o_SSL_dane_tlsa_add o i) = false) by lia.
      now rewrite Hpos, IH.
    + assert (Hpos : (0 <? o_SSL_dane_tlsa_add o i) = true) by lia.
      rewrite Hpos, IH. cbn [ssl_tlsa add_tlsa]. now rewrite <- app_assoc.
Qed.

Lemma usable_records_length o rps i :
  List.length (usable_records o rps i) = tlsa_add_usable o rps i.
Proof.
  revert i. induction rps as [|rp next IH]; intros i; simpl; [reflexivity |].
  rewrite length_app, IH. now destruct (0 <? o_SSL_dane_tlsa_add o i).
Qed.

(** X9.  The session on which an iteration calls [SSL_connect] (there is
    at most one) holds, when DANE is attempted, exactly the records of
    the TLSA list that [SSL_dane_tlsa_add] accepted for it, in the order
    of the list, unusable ones skipped; and [count_tlsa_usable] has been
    incremented in this iteration once for each record the session
    holds.  Without DANE the session holds none and the counter is left
    as it was. *)
Theorem session_holds_the_usable_records (fuel : nat) (cfg : config)
    (a : addrinfo) (o : conn_oracle) (st st' : state) :
  connect_address fuel cfg a o st = Some st' ->
  List.length (usable_records o (tlsa_rdata_list st) 0) =
    tlsa_add_usable o (tlsa_rdata_list st) 0 /\
  exists ss,
    collect connect_session (trace st') =
      collect connect_session (trace st) ++ ss /\
    (List.length ss <= 1)%nat /\
    Forall (fun s =>
              ssl_tlsa s =
                (if attempt_dane st
                 then usable_records o (tlsa_rdata_list st) 0
                 else []) /\
              count_tlsa_usable st' =
                Nat.iter (List.length (ssl_tlsa s)) incr_int
                         (count_tlsa_usable st)) ss.
Proof.
  intros H. split; [apply usable_records_length |].
  destruct (connect_address_usable_exact _ _ _ _ _ _ H) as (Hex & _ & _).
  unfold records_accepted, session_is_bound in Hex.
  revert H.
  iteration_paths
    ltac:(fun o l s t =>
      let Ht := fresh "Htlsa" in
      let Hs := fresh "Hsession" in
      pose proof (tlsa_add_loop_collect connect_session o l 0 s t
                    (fun _ _ => eq_refl) (fun _ => eq_refl) (fun _ => eq_refl)
                    eq_refl eq_refl) as Ht;
      pose proof (tlsa_add_loop_session o l 0 s t) as Hs)
    ltac:(fun Hs =>
      apply (SSL_shutdown_loop_collect connect_session) in Hs;
      [| reflexivity]);
    try (cbn [fst ssl_tlsa app] in Hsession);
    rewrite ?Hsocket, ?Hconnect, ?Hnew, ?Hdane, ?Hbind in Hex;
    cbn [negb andb] in Hex.
  all:
    first
      [ exists []; split;
        [ solve [collect_finish] | split; [cbn; lia | constructor] ]
      | eexists (cons _ nil); split;
        [ solve [collect_finish]
        | split;
          [ cbn; lia
          | constructor;
            [ split;
              [ solve [eauto]
              | first [ rewrite Hsession, usable_records_length; exact Hex
                      | exact Hex ] ]
            | constructor ] ] ] ].
Qed.

Lemma session_holds_the_usable_records_witness :
  let cfg := sample_config MODE_BOTH in
  let o := mk_oracle 3 0 true 1 1 (fun i => if Nat.eqb i 0 then 0 else 1)
                     true 1 X509_V_OK (fun _ => 1) in
  let st0 :=
    snd (prelude cfg (secure_world [(sample_address, o)]
                                   [sample_record; sample_record2])) in
  usable_records o (tlsa_rdata_list st0) 0 = [sample_record2] /\
  exists st' ss,
    connect_address 1 cfg sample_address o st0 = Some st' /\
    collect connect_session (trace st') = ss /\
    Forall (fun s => ssl_tlsa s = [sample_record2] /\
                     count_tlsa_usable st' =
                       Nat.iter (List.length (ssl_tlsa s)) incr_int 0) ss.
Proof.
  intros cfg o st0. split; [reflexivity |].
  destruct (connect_address 1 cfg sample_address o st0)
    as [st'|] eqn:E; [| vm_compute in E; discriminate E].
  destruct (session_holds_the_usable_records _ _ _ _ _ _ E)
    as (_ & ss & Hc & _ & Hall).
  exists st', ss. split; [reflexivity |]. split; [exact Hc | exact Hall].
Defined.

(** ** The command line *)

Lemma parse_option_cases progname r g :
  (option_accepted r = true /\ exists g', parse_option progname r g = Continue g') \/
  (option_accepted r = false /\
   parse_option progname r g =
     Exit 3 ((if Ascii.eqb (opt r) "s"%char
              then [Ev_stderr ("Unsupported STARTTLS application: " ++ optarg r ++ ".")]
              else []) ++
             [Ev_stdout (usage_text progname)])).
Proof.
  destruct r as [c arg d]. unfold parse_option, option_accepted, print_usage.
  cbn [opt optarg].
  repeat match goal with
         | |- context [Ascii.eqb c ?x] =>
             let H := fresh "Hc" in
             destruct (Ascii.eqb c x) eqn:H;
             [apply Ascii.eqb_eq in H; subst c; cbn [Ascii.eqb Bool.eqb andb orb] |]
         end;
    cbn [andb orb app];
    repeat match goal with
           | |- context [String.eqb arg ?x] => destruct (String.eqb arg x)
           end;
    cbn [andb orb app]; first [left; split; [reflexivity | eexists; reflexivity]
                              | right; split; reflexivity].
Qed.

Lemma parse_options_accepts progname rs g out :
  forallb option_accepted rs = true ->
  exists g',
    parse_options progname rs g out =
      Continue (g', out ++ flat_map getopt_stderr rs).
Proof.
  revert g out.
  induction rs as [|r rs IH]; intros g out Hall; cbn [parse_options flat_map].
  - exists g. now rewrite app_nil_r.
  - cbn [forallb] in Hall. apply andb_true_iff in Hall. destruct Hall as [Hr Hrs].
    destruct (parse_option_cases progname r g) as [[_ [g' Hg]]|[Hno _]];
      [| congruence].
    rewrite Hg. destruct (IH g' (out ++ getopt_stderr r) Hrs) as [g2 Hg2].
    exists g2. now rewrite Hg2, <- app_assoc.
Qed.

Lemma parse_options_rejects progname rs g out :
  forallb option_accepted rs = false ->
  parse_options progname rs g out = Exit 3 (out ++ usage_output progname rs).
Proof.
  unfold usage_output, first_rejected.
  revert g out. induction rs as [|r rs IH]; intros g out Hall;
    cbn [parse_options forallb find answers_seen flat_map] in *;
    [discriminate Hall |].
  destruct (parse_option_cases progname r g) as [[Hr [g' Hg]]|[Hr Hg]];
    rewrite Hg, Hr in *; cbn [negb andb] in *.
  - rewrite (IH _ _ Hall). now rewrite <- !app_assoc.
  - cbn [flat_map]. now rewrite app_nil_r, <- !app_assoc.
Qed.

Lemma first_rejected_none rs :
  forallb option_accepted rs = true -> first_rejected rs = None.
Proof.
  unfold first_rejected. induction rs as [|r rs IH]; cbn [forallb find];
    [reflexivity |].
  intros H. apply andb_true_iff in H. destruct H as [Hr Hrs].
  rewrite Hr. cbn [negb]. now apply IH.
Qed.

Lemma answers_seen_all rs :
  forallb option_accepted rs = true -> answers_seen rs = rs.
Proof.
  induction rs as [|r rs IH]; cbn [forallb answers_seen]; [reflexivity |].
  intros H. apply andb_true_iff in H. destruct H as [Hr Hrs].
  now rewrite Hr, IH.
Qed.

Lemma argc_test inv :
  negb (Z.of_nat (List.length (argv inv)) - Z.of_nat (optind inv) =? 2) = false <->
  List.length (argv inv) = (optind inv + 2)%nat.
Proof.
  rewrite negb_false_iff, Z.eqb_eq. lia.
Qed.

Lemma startup_cases inv :
  (usage_error inv /\
   startup inv =
     Exit 3 (usage_output (progname_of (hd EmptyString (argv inv)))
                          (getopt_answers inv))) \/
  (~ usage_error inv /\
   exists cfg,
     startup inv = Continue (cfg, flat_map getopt_stderr (getopt_answers inv))).
Proof.
  unfold usage_error, startup.
  destruct (forallb option_accepted (getopt_answers inv)) eqn:Hall.
  - destruct (parse_options_accepts (progname_of (hd EmptyString (argv inv)))
                _ (initial_globals (starttls0 inv)) [] Hall) as [g Hg].
    rewrite Hg. cbn [app].
    destruct (negb (Z.of_nat (List.length (argv inv)) - Z.of_nat (optind inv) =? 2))
      eqn:Hargc.
    + left. split.
      * right. intros Hlen. apply argc_test in Hlen. congruence.
      * unfold print_usage, usage_output.
        now rewrite (first_rejected_none _ Hall), (answers_seen_all _ Hall).
    + right. apply argc_test in Hargc. split; [| eexists; reflexivity].
      intros [Hx|Hx]; [discriminate Hx | contradiction].
  - left. split; [now left |].
    now rewrite (parse_options_rejects _ _ _ _ Hall).
Qed.

Lemma exit_status_range s f :
  exit_status s f = 0 \/ exit_status s f = 1 \/ exit_status s f = 2.
Proof.
  unfold exit_status.
  destruct ((0 <? s) && (f =? 0)); [now left |].
  destruct ((0 <? s) && negb (f =? 0)); [right; now left | right; now right].
Qed.

Lemma main_status_range fuel cfg w code st :
  main fuel cfg w = Some (code, st) -> code = 0 \/ code = 1 \/ code = 2.
Proof.
  unfold main. destruct (prelude cfg w) as [[|] st0].
  - unfold cleanup. intros H. injection H as <- _. apply exit_status_range.
  - destruct (address_loop fuel cfg (w_addresses w) st0) as [st1|];
      [| discriminate].
    unfold cleanup. intros H. injection H as <- _. apply exit_status_range.
Qed.

Lemma getopt_stderr_is_output rs :
  forallb is_output (flat_map getopt_stderr rs) = true.
Proof.
  induction rs as [|r rs IH]; cbn [flat_map]; [reflexivity |].
  rewrite forallb_app, IH. unfold getopt_stderr.
  now destruct (diagnostic r).
Qed.

(** X10.  A refused command line ends the program at once, for every
    world and whatever the fuel: the status is 3 and nothing has been
    called but [getopt].  The output is what [getopt] itself reported
    for the options read, up to the first refused one; then, when that
    option is [-s], the complaint about the STARTTLS application; then
    the usage text. *)
Theorem usage_error_exits_at_once (fuel : nat) (inv : invocation) (w : world) :
  usage_error inv ->
  program fuel inv w =
    Some (3, emits (usage_output (progname_of (hd EmptyString (argv inv)))
                                 (getopt_answers inv))
                   init_state) /\
  forallb is_output
    (usage_output (progname_of (hd EmptyString (argv inv)))
                  (getopt_answers inv)) = true.
Proof.
  intros Herr. split.
  - unfold program.
    destruct (startup_cases inv) as [[_ Hs]|[Hno _]]; [| contradiction].
    now rewrite Hs.
  - unfold usage_output.
    rewrite !forallb_app, getopt_stderr_is_output.
    destruct (first_rejected (getopt_answers inv)) as [r|]; [| reflexivity].
    now destruct (Ascii.eqb (opt r) "s"%char).
Qed.

Lemma usage_error_exits_at_once_witness :
  let inv := sample_invocation
               [mk_getopt "d"%char EmptyString None;
                mk_getopt "?"%char EmptyString
                          (Some "danetls: invalid option -- 'x'"%string);
                mk_getopt "m"%char "tofu" None]
               5 ["danetls"; "-d"; "-x"; "-m"; "tofu";
                  "www.example.com"; "443"]%string in
  usage_error inv /\
  program 0 inv world_bogus =
    Some (3, emits [Ev_stderr "danetls: invalid option -- 'x'";
                    Ev_stdout (usage_text "danetls")] init_state).
Proof.
  intros inv.
  assert (Herr : usage_error inv) by (left; reflexivity).
  split; [exact Herr |].
  exact (proj1 (usage_error_exits_at_once 0 inv world_bogus Herr)).
Defined.

(** X11.  The status 3 is kept for a refused command line: a run
    returns it exactly then; every other run returns what [main] computes
    from its counters, which is 0, 1 or 2. *)
Theorem status_3_is_a_usage_error (fuel : nat) (inv : invocation) (w : world)
    (code : Z) (st : state) :
  program fuel inv w = Some (code, st) ->
  (code = 3 <-> usage_error inv) /\
  (code = 0 \/ code = 1 \/ code = 2 \/ code = 3).
Proof.
  unfold program.
  destruct (startup_cases inv) as [[Herr Hs]|[Hno [cfg Hs]]]; rewrite Hs.
  - intros H. injection H as <- _. split; [tauto | tauto].
  - destruct (main fuel cfg w) as [[code' st']|] eqn:Hm; [| discriminate].
    intros H. injection H as <- _. apply main_status_range in Hm.
    split; [| tauto].
    split; [lia | contradiction].
Qed.

Lemma status_3_is_a_usage_error_witness :
  let inv := sample_invocation [mk_getopt "m"%char "pkix" None] 3
               ["danetls"; "-m"; "pkix"; "www.example.com"; "443"]%string in
  exists code st,
    program 2 inv (secure_world [(sample_address, oracle_ok)] [sample_record])
      = Some (code, st) /\
    code <> 3 /\ ~ usage_error inv.
Proof.
  intros inv.
  destruct (program 2 inv (secure_world [(sample_address, oracle_ok)]
                                        [sample_record]))
    as [[code st]|] eqn:E; [| vm_compute in E; discriminate E].
  exists code, st. split; [reflexivity |].
  pose proof (status_3_is_a_usage_error _ _ _ _ _ E) as [Hiff _].
  assert (Hcode : code <> 3) by (vm_compute in E; injection E as <- _; discriminate).
  split; [exact Hcode | tauto].
Defined.

(** ** What the options set *)

Lemma parse_option_sets progname r g g' :
  parse_option progname r g = Continue g' ->
  g_debug g' = (if Ascii.eqb (opt r) "d"%char then 1 else g_debug g) /\
  g_service_name g' =
    (if Ascii.eqb (opt r) "n"%char then Some (optarg r) else g_service_name g) /\
  g_CAfile g' =
    (if Ascii.eqb (opt r) "c"%char then Some (optarg r) else g_CAfile g) /\
  g_auth_mode g' =
    (if Ascii.eqb (opt r) "m"%char then auth_mode_of (optarg r)
     else g_auth_mode g) /\
  g_starttls g' =
    (if Ascii.eqb (opt r) "s"%char then starttls_of (optarg r)
     else g_starttls g).
Proof.
  destruct r as [c arg d]. unfold parse_option, print_usage, auth_mode_of, starttls_of.
  cbn [opt optarg].
  repeat match goal with
         | |- context [Ascii.eqb c ?x] =>
             let H := fresh "Hc" in
             destruct (Ascii.eqb c x) eqn:H;
             [apply Ascii.eqb_eq in H; subst c; cbn [Ascii.eqb Bool.eqb andb] |]
         end;
    repeat match goal with
           | |- context [String.eqb arg ?x] => destruct (String.eqb arg x)
           end;
    intros H; try discriminate H; injection H as <-;
    cbn; repeat split; reflexivity.
Qed.

(** X12.  When the options are accepted, each global holds what the last
    option that sets it asked for, and its initial value when there is
    none: the argument of the last [-n] and of the last [-c], the mode of
    the last [-m], the application of the last [-s]; [debug] is 1 as
    soon as one [-d] is given.  Options do not disturb each other.  The
    only output is what the calls of [getopt] wrote. *)
Theorem last_option_wins (progname : string) (rs : list getopt_result)
    (g0 g : globals) (out0 out : list event) :
  parse_options progname rs g0 out0 = Continue (g, out) ->
  g_debug g = (if option_given "d"%char rs then 1 else g_debug g0) /\
  g_service_name g =
    match last_optarg "n"%char rs with
    | Some x => Some x
    | None => g_service_name g0
    end /\
  g_CAfile g =
    match last_optarg "c"%char rs with
    | Some x => Some x
    | None => g_CAfile g0
    end /\
  g_auth_mode g =
    match last_optarg "m"%char rs with
    | Some x => auth_mode_of x
    | None => g_auth_mode g0
    end /\
  g_starttls g =
    match last_optarg "s"%char rs with
    | Some x => starttls_of x
    | None => g_starttls g0
    end /\
  out = out0 ++ flat_map getopt_stderr rs.
Proof.
  revert g0 out0.
  induction rs as [|r rs IH]; intros g0 out0; cbn [parse_options].
  - intros H. injection H as <- <-. rewrite app_nil_r. repeat split; reflexivity.
  - destruct (parse_option progname r g0) as [code usage|g1] eqn:Hr;
      [discriminate |].
    intros H. apply IH in H. destruct H as (Hd & Hn & Hc & Hm & Hs & Ho).
    apply parse_option_sets in Hr. destruct Hr as (Hd1 & Hn1 & Hc1 & Hm1 & Hs1).
    unfold option_given in *. cbn [last_optarg existsb flat_map].
    rewrite Hd, Hn, Hc, Hm, Hs, Hd1, Hn1, Hc1, Hm1, Hs1, Ho.
    split; [| split; [| split; [| split; [| split]]]].
    + destruct (Ascii.eqb (opt r) "d"%char); cbn [orb];
        now destruct (existsb _ rs).
    + destruct (last_optarg "n"%char rs); [reflexivity |].
      now destruct (Ascii.eqb (opt r) "n"%char).
    + destruct (last_optarg "c"%char rs); [reflexivity |].
      now destruct (Ascii.eqb (opt r) "c"%char).
    + destruct (last_optarg "m"%char rs); [reflexivity |].
      now destruct (Ascii.eqb (opt r) "m"%char).
    + destruct (last_optarg "s"%char rs); [reflexivity |].
      now destruct (Ascii.eqb (opt r) "s"%char).
    + now rewrite <- app_assoc.
Qed.

Lemma last_option_wins_witness :
  let rs := [mk_getopt "m"%char "dane" None; mk_getopt "s"%char "smtp" None;
             mk_getopt "d"%char EmptyString None;
             mk_getopt "m"%char "pkix" None] in
  exists g out,
    parse_options "danetls" rs (initial_globals STARTTLS_NONE) [] =
      Continue (g, out) /\
    g_auth_mode g = MODE_PKIX /\ g_starttls g = STARTTLS_SMTP /\
    g_debug g = 1 /\ g_CAfile g = None.
Proof.
  intros rs.
  destruct (parse_options "danetls" rs (initial_globals STARTTLS_NONE) [])
    as [code usage|[g out]] eqn:E; [vm_compute in E; discriminate E |].
  exists g, out. split; [reflexivity |].
  destruct (last_option_wins _ _ _ _ _ _ E) as (Hd & _ & Hc & Hm & Hs & _).
  split; [exact Hm |]. split; [exact Hs |]. split; [exact Hd | exact Hc].
Defined.

(** ** The program name and the positional arguments *)

Lemma strrchr_none s c :
  strrchr s c = None -> ~ In c (chars s).
Proof.
  unfold chars. induction s as [|a rest IH]; cbn [strrchr list_ascii_of_string];
    [intros _ [] |].
  destruct (strrchr rest c) as [p|]; [discriminate |].
  destruct (Ascii.eqb a c) eqn:Hac; [discriminate |].
  intros _ [Hx|Hx].
  - apply Ascii.eqb_neq in Hac. contradiction.
  - now apply IH.
Qed.

Lemma strrchr_some s c p :
  strrchr s c = Some p ->
  exists before after,
    s = (before ++ String c after)%string /\ p = String c after /\
    ~ In c (chars after).
Proof.
  revert p. induction s as [|a rest IH]; intros p; cbn [strrchr];
    [discriminate |].
  destruct (strrchr rest c) as [q|] eqn:Hrest.
  - intros H. injection H as <-.
    destruct (IH q eq_refl) as (before & after & Hs & Hq & Hno).
    exists (String a before), after. cbn [String.append].
    now rewrite Hs.
  - destruct (Ascii.eqb a c) eqn:Hac; [| discriminate].
    intros H. injection H as <-. apply Ascii.eqb_eq in Hac. subst a.
    exists EmptyString, rest. repeat split.
    now apply strrchr_none.
Qed.

(** X13.  [progname] is what follows the last slash of [argv[0]], and
    the whole of it when there is none: [argv[0]] is a directory part,
    empty or ending in a slash, followed by [progname], and [progname]
    holds no slash. *)
Theorem progname_is_the_last_component (argv0 : string) :
  exists dir,
    argv0 = (dir ++ progname_of argv0)%string /\
    (dir = EmptyString \/ exists d, dir = (d ++ "/")%string) /\
    ~ In "/"%char (chars (progname_of argv0)).
Proof.
  unfold progname_of.
  destruct (strrchr argv0 "/"%char) as [p|] eqn:Hp.
  - destruct (strrchr_some _ _ _ Hp) as (before & after & Hs & -> & Hno).
    exists (before ++ "/")%string. split; [| split].
    + rewrite Hs. clear. induction before as [|a b IH]; cbn [String.append];
        [reflexivity | now rewrite IH].
    + right. now exists before.
    + exact Hno.
  - exists EmptyString. split; [reflexivity |]. split; [now left |].
    now apply strrchr_none.
Qed.


Lemma nth_skipn_string (n k : nat) (l : list string) :
  nth k (skipn n l) EmptyString = nth (n + k) l EmptyString.
Proof.
  revert l. induction n as [|n IH]; intros l; [reflexivity |].
  destruct l as [|x l]; cbn [skipn Nat.add nth]; [now destruct k |].
  apply IH.
Qed.

(** X14.  When the command line is accepted, exactly two arguments
    follow the options.  [hostname] and [port] are read from [argv] as
    [getopt] has left it, at the positions [optind] and [optind + 1]:
    [hostname] is the string there, [port] the value of [atoi] on it,
    reduced to the 16 bits of a [uint16_t].  With a [getopt] that keeps
    the elements of [argv] (it may reorder them), [hostname] is one of
    the arguments the program was started with.  The other settings are
    those the options left in the globals. *)
Theorem startup_reads_host_and_port (inv : invocation) (cfg : config)
    (out : list event) :
  List.length (argv_after_getopt inv) = List.length (argv inv) ->
  startup inv = Continue (cfg, out) ->
  List.length (argv inv) = (optind inv + 2)%nat /\
  hostname cfg = nth (optind inv) (argv_after_getopt inv) EmptyString /\
  port cfg =
    atoi inv (nth (optind inv + 1) (argv_after_getopt inv) EmptyString)
      mod 65536 /\
  0 <= port cfg < 65536 /\
  In (hostname cfg) (argv_after_getopt inv) /\
  ((forall x, In x (argv_after_getopt inv) -> In x (argv inv)) ->
   In (hostname cfg) (argv inv)) /\
  exists g,
    parse_options (progname_of (hd EmptyString (argv inv)))
                  (getopt_answers inv) (initial_globals (starttls0 inv)) []
      = Continue (g, out) /\
    auth_mode cfg = g_auth_mode g /\ CAfile cfg = g_CAfile g /\
    service_name cfg = g_service_name g /\ starttls cfg = g_starttls g.
Proof.
  intros Hlen. unfold startup.
  destruct (parse_options _ _ _ _) as [code usage|[g out1]] eqn:Hg;
    [discriminate |].
  destruct (negb _) eqn:Hargc; [discriminate |].
  intros H. injection H as <- <-. apply argc_test in Hargc.
  cbn [hostname port auth_mode CAfile service_name starttls].
  rewrite !nth_skipn_string, Nat.add_0_r.
  assert (Hin : In (nth (optind inv) (argv_after_getopt inv) EmptyString)
                   (argv_after_getopt inv)) by (apply nth_In; lia).
  split; [exact Hargc |]. split; [reflexivity |]. split; [reflexivity |].
  split; [apply Z.mod_pos_bound; lia |].
  split; [exact Hin |]. split; [intros Hsub; now apply Hsub |].
  exists g. repeat split.
Qed.

Lemma startup_reads_host_and_port_witness :
  let inv := mk_invocation
               ["./bin/danetls"; "mail.example.com"; "-m"; "pkix"; "70000"]%string
               [mk_getopt "m"%char "pkix" None] 3
               ["./bin/danetls"; "-m"; "pkix"; "mail.example.com"; "70000"]%string
               (fun _ => 70000) STARTTLS_NONE in
  exists cfg out,
    startup inv = Continue (cfg, out) /\
    hostname cfg = "mail.example.com"%string /\ port cfg = 4464.
Proof.
  intros inv.
  destruct (startup inv) as [code usage|[cfg out]] eqn:E;
    [vm_compute in E; discriminate E |].
  exists cfg, out. split; [reflexivity |].
  destruct (startup_reads_host_and_port inv cfg out eq_refl E)
    as (_ & Hh & Hp & _).
  split; [exact Hh | exact Hp].
Defined.

(** ** The DNSSEC warnings *)

(** X15.  The two warnings about DNSSEC are printed before the loop, and
    only when the TLSA records were asked for and found and the answers
    are not bogus: "Insecure TLSA records." exactly when the TLSA answer
    is not authenticated, "Insecure Address records." exactly when the
    TLSA answer is authenticated and one of the address answers is not.
    So the first warning hides the second, and in PKIX mode there is
    none. *)
Theorem dnssec_warnings (cfg : config) (w : world) :
  (In (Ev_stderr "Insecure TLSA records.") (trace (snd (prelude cfg w))) <->
   w_resolver w = true /\ dns_bogus_or_indeterminate w = 0 /\
   auth_mode cfg <> MODE_PKIX /\ w_tlsa w <> [] /\
   tlsa_authenticated w = 0) /\
  (In (Ev_stderr "Insecure Address records.") (trace (snd (prelude cfg w))) <->
   w_resolver w = true /\ dns_bogus_or_indeterminate w = 0 /\
   auth_mode cfg <> MODE_PKIX /\ w_tlsa w <> [] /\
   tlsa_authenticated w <> 0 /\
   (v4_authenticated w = 0 \/ v6_authenticated w = 0)).
Proof.
  prelude_cases cfg w; flags_norm;
    (split; (split;
     [ let Hin := fresh "Hin" in
       intros Hin;
       repeat match goal with
              | Hx : _ \/ _ |- _ => destruct Hx as [Hx|Hx]
              end;
       first [ contradiction | discriminate Hin
             | repeat split; first [assumption | discriminate | lia | tauto] ]
     | intros (Hr & Hb & Hm & Ht & Ha); first [ congruence | lia | tauto ] ])).
Qed.
